(** * ResponderAgent: the agent loop of the assistant hub

    A shallow embedding of [src/services/assistant/agents/ResponderAgent.ts].
    The class keeps two mutable fields ([currentMessages], [steps]) and talks
    to five collaborators: the uuid library, the tool catalog
    ([getToolsByPrompt]), the completion provider
    ([openai.chat.completions.create]), the stream controller of the response
    and the message store ([createMessage], behind [waitUntil]).  The mutable
    fields and the observable effects live in one record [State]; methods are
    computations of a state-and-exception monad in which a [throw] keeps the
    effects that happened before it, as in JavaScript. *)

From Stdlib Require Import String List ZArith Bool Lia.
Import ListNotations.
Local Open Scope string_scope.
Local Open Scope list_scope.

(** ** JavaScript helpers *)

(** [a || b] on a string that may be [undefined]: the empty string is falsy. *)
Definition js_or (a : option string) (b : string) : string :=
  match a with
  | Some s => if String.eqb s EmptyString then b else s
  | None => b
  end.

(** [arr[arr.length - 1]]; [None] stands for [undefined]. *)
Definition last_element {A : Type} (arr : list A) : option A :=
  nth_error arr (length arr - 1).

(** ** Data model *)

(** The role union of a message, as spelled out in [ChatBubble.tsx]. *)
Inductive Role : Type :=
  | system | user | assistant | function | data | tool.

(** A tool call as it travels in a delta and in a merged message.  Every
    property but the index may be absent in a fragment. *)
Record ToolCall : Type := mkToolCall {
  call_index : nat;
  call_id : option string;
  call_name : option string;
  call_arguments : option string
}.

(** [choices[0].delta] of a chunk. *)
Record Delta : Type := mkDelta {
  delta_role : option Role;
  delta_content : option string;
  delta_tool_calls : option (list ToolCall)
}.

Record Choice : Type := mkChoice {
  delta : Delta;
  finish_reason : option string
}.

(** A [ChatCompletionChunk] as a JavaScript object: [choices = None] is the
    object without that property, which is what [{} as ChatCompletionChunk]
    is. *)
Record ChatCompletionChunk : Type := mkChunk {
  choices : option (list Choice)
}.

Definition empty_object : ChatCompletionChunk := mkChunk None.

(** [Message] and [ToolMessage] of [@/types/Message], on one record:
    [tool_calls] belongs to assistant messages, [tool_call_id] to tool
    messages. *)
Record Message : Type := mkMessage {
  id : string;
  thread_id : string;
  role : option Role;
  content : option string;
  tool_calls : option (list ToolCall);
  tool_call_id : option string
}.

Record ChatCompletionTool : Type := mkTool {
  tool_name : string;
  tool_description : string;
  tool_required : list string
}.

Definition mockTools : list ChatCompletionTool :=
  [ mkTool "get_current_weather"
           "Get the current weather in a given location."
           ["location"];
    mkTool "control_air_conditioner"
           "部屋のクーラーの温度を調整します"
           ["temperature"] ].

Definition MAX_TOOLCALL_STEPS : Z := 5.

(** The constructor argument; [None] is an omitted property. *)
Record ResponderAgentParam : Type := mkParam {
  param_threadID : string;
  param_messages : list Message;
  param_maxToolCallSteps : option Z;
  param_save : option bool;
  param_model : option string
}.

(** The readonly fields of the class. *)
Record ResponderAgent : Type := mkAgent {
  threadID : string;
  maxToolCallSteps : Z;
  save : bool;
  model : option string;
  tools : list ChatCompletionTool
}.

Definition set_save (b : bool) (a : ResponderAgent) : ResponderAgent :=
  mkAgent (threadID a) (maxToolCallSteps a) b (model a) (tools a).

Inductive Exception : Type :=
  | Error (message : string)
  | TypeError (message : string).

(** The body of [openai.chat.completions.create]. *)
Record CompletionRequest : Type := mkRequest {
  req_model : string;
  req_stream : bool;
  req_messages : list Message;
  req_tools : option (list ChatCompletionTool)
}.

(** A ranked entry of the tool catalog, as far as [initialize] looks at it. *)
Record SuggestedTool : Type := mkSuggested {
  name : string;
  similarity : string
}.

(** What [controller.enqueue] receives, before [JSON.stringify]. *)
Inductive Event : Type :=
  | Fragment (d : Delta) (message_id : string)
  | ToolResult (m : Message).

(** One constructor per [console.log] / [console.error] of the class. *)
Inductive LogLine : Type :=
  | LogRunning
  | LogSuggested (l : list (string * string))
  | LogStep (steps : Z) (n_messages : nat)
  | LogToolCalls (toolCalls : list ToolCall)
  | LogSaved (r : option Role) (c : string) (n_tool_calls : option nat)
  | LogSaveFailed (e : Exception).

(** The mutable fields of the instance and the effects it has had so far.
    Lists grow at the end. *)
Record State : Type := mkState {
  currentMessages : list Message;
  steps : Z;
  uuid_count : nat;
  catalog_queries : list string;
  requests : list CompletionRequest;
  enqueued : list Event;
  closed : bool;
  console : list LogLine;
  waiting : list (list Message)
}.

(** ** The monad *)

Inductive Completion (A : Type) : Type :=
  | Return (a : A)
  | Throw (e : Exception)
  | OutOfFuel.
Arguments Return {A} a.
Arguments Throw {A} e.
Arguments OutOfFuel {A}.

Definition M (S A : Type) : Type := S -> Completion A * S.

Definition ret {S A : Type} (a : A) : M S A := fun s => (Return a, s).

Definition throw {S A : Type} (e : Exception) : M S A := fun s => (Throw e, s).

Definition bind {S A B : Type} (c : M S A) (k : A -> M S B) : M S B :=
  fun s =>
    match c s with
    | (Return a, s') => k a s'
    | (Throw e, s') => (Throw e, s')
    | (OutOfFuel, s') => (OutOfFuel, s')
    end.

(** [try { c } catch (error) { h error }] *)
Definition try_catch {S A : Type} (c : M S A) (h : Exception -> M S A) : M S A :=
  fun s =>
    match c s with
    | (Throw e, s') => h e s'
    | r => r
    end.

Definition get {S : Type} : M S S := fun s => (Return s, s).

Definition modify {S : Type} (f : S -> S) : M S unit := fun s => (Return tt, f s).

Declare Scope agent_scope.
Delimit Scope agent_scope with agent.
Notation "x <- c ;; k" := (bind c (fun x => k))
  (at level 61, c at next level, right associativity) : agent_scope.
Notation "' p <- c ;; k" := (bind c (fun x => match x with p => k end))
  (at level 61, p pattern, c at next level, right associativity) : agent_scope.
Notation "c ;; k" := (bind c (fun _ => k))
  (at level 61, right associativity) : agent_scope.
Local Open Scope agent_scope.

(** [for (const x of l) { f x }], and [l.forEach(f)]. *)
Fixpoint for_each {S A : Type} (f : A -> M S unit) (l : list A) : M S unit :=
  match l with
  | [] => ret tt
  | x :: l' => f x ;; for_each f l'
  end.

(** ** Effects on [State] *)

Definition log (l : LogLine) : M State unit :=
  modify (fun s =>
    mkState (currentMessages s) (steps s) (uuid_count s) (catalog_queries s)
            (requests s) (enqueued s) (closed s) (console s ++ [l]) (waiting s)).

(** [controller.enqueue(JSON.stringify(e) + "\n")] *)
Definition enqueue (e : Event) : M State unit :=
  modify (fun s =>
    mkState (currentMessages s) (steps s) (uuid_count s) (catalog_queries s)
            (requests s) (enqueued s ++ [e]) (closed s) (console s) (waiting s)).

(** [controller.close()] *)
Definition close : M State unit :=
  modify (fun s =>
    mkState (currentMessages s) (steps s) (uuid_count s) (catalog_queries s)
            (requests s) (enqueued s) true (console s) (waiting s)).

(** [this.currentMessages.push(...ms)] *)
Definition push_currentMessages (ms : list Message) : M State unit :=
  modify (fun s =>
    mkState (currentMessages s ++ ms) (steps s) (uuid_count s)
            (catalog_queries s) (requests s) (enqueued s) (closed s)
            (console s) (waiting s)).

(** [this.steps += 1] *)
Definition increment_steps : M State unit :=
  modify (fun s =>
    mkState (currentMessages s) (steps s + 1) (uuid_count s)
            (catalog_queries s) (requests s) (enqueued s) (closed s)
            (console s) (waiting s)).

(** [waitUntil(this.saveMessages(ms))]: the promise is handed to the
    platform and nobody awaits it here; all the caller of [waitUntil] has
    afterwards is the fact that a relay over [ms] is under way. *)
Definition waitUntil_saveMessages (ms : list Message) : M State unit :=
  modify (fun s =>
    mkState (currentMessages s) (steps s) (uuid_count s) (catalog_queries s)
            (requests s) (enqueued s) (closed s) (console s)
            (waiting s ++ [ms])).

(** [o.choices[0]], about to be read at property [prop]. *)
Definition first_choice {S : Type} (o : ChatCompletionChunk) (prop : string)
  : M S Choice :=
  match choices o with
  | None =>
      throw (TypeError "Cannot read properties of undefined (reading '0')")
  | Some [] =>
      throw (TypeError
               ("Cannot read properties of undefined (reading '" ++ prop ++ "')")%string)
  | Some (c :: _) => ret c
  end.

(** [arr.slice(-n)] *)
Definition slice_last {A : Type} (n : nat) (arr : list A) : list A :=
  skipn (length arr - n) arr.

(** [{ ...delta, id, thread_id } as Message] *)
Definition message_of_delta (d : Delta) (uuid thread : string) : Message :=
  mkMessage uuid thread (delta_role d) (delta_content d) (delta_tool_calls d) None.

(** The literal of [executeTools]. *)
Definition tool_message (uuid : string) (toolCall : ToolCall) (thread : string)
  : Message :=
  mkMessage uuid thread (Some tool) (Some "実行しました") None
            (Some (js_or (call_id toolCall) EmptyString)).

(** ** The class *)

Definition new_ResponderAgent (p : ResponderAgentParam) : ResponderAgent :=
  mkAgent (param_threadID p)
          (match param_maxToolCallSteps p with
           | Some n => n
           | None => MAX_TOOLCALL_STEPS
           end)
          (match param_save p with Some b => b | None => true end)
          (param_model p)
          mockTools.

(** The instance fields right after the constructor, in a world where
    nothing has happened yet. *)
Definition new_State (p : ResponderAgentParam) : State :=
  mkState (param_messages p) 0 0 [] [] [] false [] [].

Section Methods.

(** The collaborators.  [uuid n] is what the [n]-th call of [uuidv4]
    returns; [create n req] is what the provider streams back for [req]
    when it is the [n]-th request, or the exception the call ends in. *)
Variable uuid : nat -> string.
Variable mergeResponseObjects :
  ChatCompletionChunk -> ChatCompletionChunk -> ChatCompletionChunk.
Variable processMessagesForLM : list Message -> option string.
Variable getToolsByPrompt : string -> Exception + list SuggestedTool.
Variable create : nat -> CompletionRequest -> Exception + list ChatCompletionChunk.
Variable CHATGPT_DEFAULT_MODEL : option string.

Definition uuidv4 : M State string :=
  fun s =>
    (Return (uuid (uuid_count s)),
     mkState (currentMessages s) (steps s) (S (uuid_count s))
             (catalog_queries s) (requests s) (enqueued s) (closed s)
             (console s) (waiting s)).

Definition call_getToolsByPrompt (query : string) : M State (list SuggestedTool) :=
  fun s =>
    let s' :=
      mkState (currentMessages s) (steps s) (uuid_count s)
              (catalog_queries s ++ [query]) (requests s) (enqueued s)
              (closed s) (console s) (waiting s) in
    match getToolsByPrompt query with
    | inl e => (Throw e, s')
    | inr l => (Return l, s')
    end.

Definition call_create (req : CompletionRequest) : M State (list ChatCompletionChunk) :=
  fun s =>
    let s' :=
      mkState (currentMessages s) (steps s) (uuid_count s)
              (catalog_queries s) (requests s ++ [req]) (enqueued s)
              (closed s) (console s) (waiting s) in
    match create (length (requests s)) req with
    | inl e => (Throw e, s')
    | inr chunks => (Return chunks, s')
    end.

Definition initialize : M State unit :=
  log LogRunning ;;
  s <- get ;;
  match currentMessages s with
  | [] => throw (Error "Messages array is empty")
  | _ :: _ =>
      suggestedTools <-
        call_getToolsByPrompt
          (js_or (processMessagesForLM (slice_last 5 (currentMessages s))) EmptyString) ;;
      log (LogSuggested (map (fun t => (name t, similarity t)) suggestedTools))
  end.

Definition fetch (this : ResponderAgent) : M State (list ChatCompletionChunk) :=
  s <- get ;;
  let tools :=
    if (steps s <? maxToolCallSteps this)%Z then Some (tools this) else None in
  call_create
    (mkRequest (js_or (model this) (js_or CHATGPT_DEFAULT_MODEL "gpt-4o"))
               true (currentMessages s) tools).

(** The [while (true)] of [processResponse] over the chunks the reader
    yields before [done]. *)
Fixpoint read_chunks (currentMessageUUID : string)
    (stream : list ChatCompletionChunk) (newChunkObject : ChatCompletionChunk)
  : M State ChatCompletionChunk :=
  match stream with
  | [] => ret newChunkObject
  | parsedChunk :: rest =>
      let newChunkObject := mergeResponseObjects newChunkObject parsedChunk in
      c <- first_choice parsedChunk "delta" ;;
      enqueue (Fragment (delta c) currentMessageUUID) ;;
      read_chunks currentMessageUUID rest newChunkObject
  end.

Definition processResponse (this : ResponderAgent)
    (stream : list ChatCompletionChunk)
  : M State (Message * ChatCompletionChunk) :=
  currentMessageUUID <- uuidv4 ;;
  newChunkObject <- read_chunks currentMessageUUID stream empty_object ;;
  c <- first_choice newChunkObject "delta" ;;
  ret (message_of_delta (delta c) currentMessageUUID (threadID this),
       newChunkObject).

Definition hasToolCall (newChunkObject : ChatCompletionChunk) : M State bool :=
  c <- first_choice newChunkObject "finish_reason" ;;
  ret (match finish_reason c with
       | Some r => String.eqb r "tool_calls"
       | None => false
       end).

(** [toolCalls.map(...)]: one [uuidv4()] per element, left to right. *)
Definition map_toolCalls (this : ResponderAgent)
  : list ToolCall -> M State (list Message) :=
  fix map_rest (toolCalls : list ToolCall) : M State (list Message) :=
    match toolCalls with
    | [] => ret []
    | toolCall :: rest =>
        u <- uuidv4 ;;
        result <- map_rest rest ;;
        ret (tool_message u toolCall (threadID this) :: result)
    end.

Definition executeTools (this : ResponderAgent) (toolCalls : list ToolCall)
  : M State (list Message) :=
  log (LogToolCalls toolCalls) ;;
  map_toolCalls this toolCalls.

Definition handleToolCalls (this : ResponderAgent) (newMessage : Message)
  : M State (list Message) :=
  let toolCalls :=
    match role newMessage, tool_calls newMessage with
    | Some assistant, Some l => l
    | _, _ => []
    end in
  executeTools this toolCalls.

(** The [while] of [processSteps]; it hands back [messagesToSave].  Each
    iteration that does not [break] adds one to [steps], so
    [maxToolCallSteps - steps] iterations are the most there can be. *)
Fixpoint while_steps (fuel : nat) (this : ResponderAgent)
    (messagesToSave : list Message) : M State (list Message) :=
  match fuel with
  | O => fun s => (OutOfFuel, s)
  | S fuel' =>
      s <- get ;;
      if (steps s <? maxToolCallSteps this)%Z then
        log (LogStep (steps s) (length (currentMessages s))) ;;
        responseStream <- fetch this ;;
        ' (newMessage, newChunkObject) <- processResponse this responseStream ;;
        let messagesToSave := messagesToSave ++ [newMessage] in
        b <- hasToolCall newChunkObject ;;
        if negb b then
          push_currentMessages [newMessage] ;;
          ret messagesToSave
        else
          toolCallResults <- handleToolCalls this newMessage ;;
          for_each (fun result => enqueue (ToolResult result)) toolCallResults ;;
          let messagesToSave :=
            if save this then messagesToSave ++ toolCallResults
            else messagesToSave in
          push_currentMessages (newMessage :: toolCallResults) ;;
          increment_steps ;;
          while_steps fuel' this messagesToSave
      else ret messagesToSave
  end.

(** [processSteps].  [run] gets here only after [initialize] has let a
    non-empty history through, so the read of the last element has a
    value; on an empty array JavaScript would put [undefined] in the
    list, a case left out of [list Message]. *)
Definition processSteps (this : ResponderAgent) : M State unit :=
  s <- get ;;
  let messagesToSave :=
    match last_element (currentMessages s) with
    | Some m => [m]
    | None => []
    end in
  messagesToSave <-
    while_steps (S (Z.to_nat (maxToolCallSteps this - steps s))) this
                messagesToSave ;;
  waitUntil_saveMessages messagesToSave.

Definition finalize : M State unit := close.

(** How the [ReadableStream] handed out by [run] ends: closed by
    [finalize], or errored by an exception out of its [start]. *)
Inductive ReadableStream : Type :=
  | StreamClosed
  | StreamErrored (e : Exception).

Definition start (this : ResponderAgent) : M State ReadableStream :=
  fun s =>
    match (processSteps this ;; finalize) s with
    | (Return _, s') => (Return StreamClosed, s')
    | (Throw e, s') => (Return (StreamErrored e), s')
    | (OutOfFuel, s') => (OutOfFuel, s')
    end.

Definition run (this : ResponderAgent) : M State ReadableStream :=
  initialize ;;
  start this.

End Methods.

(** ** The persistence relay *)

(** What the relay works on: the message store and the console. *)
Record StoreState : Type := mkStore {
  stored : list Message;
  attempts : nat;
  relay_console : list LogLine
}.

Definition relay_log (l : LogLine) : M StoreState unit :=
  modify (fun st => mkStore (stored st) (attempts st) (relay_console st ++ [l])).

Section Relay.

(** [faults n m] is the exception the store answers with when [m] arrives
    as its [n]-th append, if it fails there. *)
Variable faults : nat -> Message -> option Exception.

(** Modelled from the spec: [createMessage] of [@/services/messages] is
    not among the sources.  The Message Store is append-only,
    [append(Message) -> none], and an append can fail; a failed append
    stores nothing. *)
Definition createMessage (message : Message) : M StoreState unit :=
  fun st =>
    match faults (attempts st) message with
    | Some e =>
        (Throw e, mkStore (stored st) (S (attempts st)) (relay_console st))
    | None =>
        (Return tt,
         mkStore (stored st ++ [message]) (S (attempts st)) (relay_console st))
    end.

(** The third argument of the "[Message Saved]" line. *)
Definition tool_calls_note (message : Message) : option nat :=
  match role message, tool_calls message with
  | Some assistant, Some (c :: l) => Some (length (c :: l))
  | _, _ => None
  end.

Definition saveMessages (newMessages : list Message) : M StoreState unit :=
  try_catch
    (for_each
       (fun message =>
          createMessage message ;;
          relay_log (LogSaved (role message)
                              (js_or (content message) EmptyString)
                              (tool_calls_note message)))
       newMessages)
    (fun error => relay_log (LogSaveFailed error)).

End Relay.

Definition empty_store : StoreState := mkStore [] 0 [].

(** ** The delta merger *)

Module DeltaMerger.

Definition append_content (accumulated next : option string) : option string :=
  match next with
  | None => accumulated
  | Some y =>
      Some (match accumulated with Some x => x ++ y | None => y end)%string
  end.

Definition adopt_new (existing newly : option string) : option string :=
  match newly with
  | Some v => Some v
  | None => existing
  end.

Definition adopt (existing newly : option string) : option string :=
  match existing with
  | Some v =>
      if String.eqb v EmptyString then adopt_new existing newly else existing
  | None => adopt_new existing newly
  end.

Fixpoint merge_piece (piece : ToolCall) (entries : list ToolCall) : list ToolCall :=
  match entries with
  | [] => [piece]
  | entry :: entries' =>
      if Nat.eqb (call_index entry) (call_index piece) then
        mkToolCall (call_index entry)
                   (adopt (call_id entry) (call_id piece))
                   (adopt (call_name entry) (call_name piece))
                   (append_content (call_arguments entry) (call_arguments piece))
        :: entries'
      else entry :: merge_piece piece entries'
  end.

Definition merge_tool_calls (accumulated next : option (list ToolCall))
  : option (list ToolCall) :=
  match next with
  | None => accumulated
  | Some pieces =>
      Some (fold_left (fun entries piece => merge_piece piece entries) pieces
                      (match accumulated with Some l => l | None => [] end))
  end.

Definition merge_finish (accumulated next : option string) : option string :=
  match next with
  | Some r => if String.eqb r EmptyString then accumulated else Some r
  | None => accumulated
  end.

Definition merge_choice (accumulated next : Choice) : Choice :=
  mkChoice
    (mkDelta
       (match delta_role (delta accumulated) with
        | Some r => Some r
        | None => delta_role (delta next)
        end)
       (append_content (delta_content (delta accumulated))
                       (delta_content (delta next)))
       (merge_tool_calls (delta_tool_calls (delta accumulated))
                         (delta_tool_calls (delta next))))
    (merge_finish (finish_reason accumulated) (finish_reason next)).

(** Modelled from the spec: [mergeResponseObjects] of
    [@/utils/mergeResponseObject] is not among the sources.  Content is
    appended; tool-call pieces are merged by index, a new index is
    inserted, an existing entry has the arguments concatenated and takes
    a newly present id or function name as long as it has none of its own
    (the first non-empty value stays); the most recent non-empty finish
    indicator wins.  The role, of which the spec says nothing, is kept
    from the first fragment that has one. *)
Definition mergeResponseObjects (accumulated next : ChatCompletionChunk)
  : ChatCompletionChunk :=
  match choices accumulated, choices next with
  | Some (a :: _), Some (n :: _) => mkChunk (Some [merge_choice a n])
  | Some (a :: l), _ => accumulated
  | _, _ => next
  end.

End DeltaMerger.

(** The merged object [processResponse] ends its read loop with. *)
Definition merged (merge : ChatCompletionChunk -> ChatCompletionChunk -> ChatCompletionChunk)
    (stream : list ChatCompletionChunk) : ChatCompletionChunk :=
  fold_left merge stream empty_object.

(** ** Scenarios *)

Module Scenario.

Definition uuid (n : nat) : string :=
  String (Ascii.ascii_of_nat (97 + n)) "-uuid".

Definition processMessagesForLM (ms : list Message) : option string :=
  Some (String.concat " " (map (fun m => js_or (content m) EmptyString) ms)).

Definition catalog_up (query : string) : Exception + list SuggestedTool :=
  inr [mkSuggested "get_current_weather" "0.83"].

Definition catalog_down (query : string) : Exception + list SuggestedTool :=
  inl (Error "fetch failed").

Definition earlier : Message :=
  mkMessage "m1" "t1" (Some system) (Some "You are a helpful assistant.") None None.

Definition question : Message :=
  mkMessage "m2" "t1" (Some user) (Some "What's the weather in Tokyo?") None None.

Definition weather_call : ToolCall :=
  mkToolCall 0 (Some "call_1") (Some "get_current_weather")
             (Some "{ location: Tokyo }").

(** A response that asks for a tool call, in two chunks. *)
Definition tool_calls_stream : list ChatCompletionChunk :=
  [ mkChunk (Some [mkChoice (mkDelta (Some assistant) None (Some [weather_call])) None]);
    mkChunk (Some [mkChoice (mkDelta None None None) (Some "tool_calls")]) ].

(** A response that answers and stops, in two chunks. *)
Definition stop_stream : list ChatCompletionChunk :=
  [ mkChunk (Some [mkChoice (mkDelta (Some assistant) (Some "It's ") None) None]);
    mkChunk (Some [mkChoice (mkDelta None (Some "sunny.") None) (Some "stop")]) ].

(** A provider that asks for a tool call whatever it is sent. *)
Definition always_tool_calls (n : nat) (req : CompletionRequest)
  : Exception + list ChatCompletionChunk :=
  inr tool_calls_stream.

(** A provider that answers and stops. *)
Definition always_stop (n : nat) (req : CompletionRequest)
  : Exception + list ChatCompletionChunk :=
  inr stop_stream.

(** A provider whose stream closes before the first chunk. *)
Definition silent (n : nat) (req : CompletionRequest)
  : Exception + list ChatCompletionChunk :=
  inr [].

Definition param (history : list Message) (maxToolCallSteps : option Z)
    (save : option bool) : ResponderAgentParam :=
  mkParam "t1" history maxToolCallSteps save None.

(** [new ResponderAgent(p).run()] against the given catalog and provider. *)
Definition run_agent (catalog : string -> Exception + list SuggestedTool)
    (provider : nat -> CompletionRequest -> Exception + list ChatCompletionChunk)
    (p : ResponderAgentParam) : Completion ReadableStream * State :=
  run uuid DeltaMerger.mergeResponseObjects processMessagesForLM catalog
      provider None (new_ResponderAgent p) (new_State p).

(** The catalog is down. *)
Definition catalog_down_run : Completion ReadableStream * State :=
  run_agent catalog_down always_stop (param [question] None None).

(** A history of two messages, and the provider answers at once. *)
Definition answered_run : Completion ReadableStream * State :=
  run_agent catalog_up always_stop (param [earlier; question] None None).

(** [maxToolCallSteps = 2] against a provider that never stops asking. *)
Definition tool_loop_run : Completion ReadableStream * State :=
  run_agent catalog_up always_tool_calls (param [question] (Some 2%Z) None).

(** [maxToolCallSteps = 0], and the provider would answer at once. *)
Definition zero_steps_run : Completion ReadableStream * State :=
  run_agent catalog_up always_stop (param [question] (Some 0%Z) None).

(** As [tool_loop_run], with [save = false]. *)
Definition unsaved_tool_loop_run : Completion ReadableStream * State :=
  run_agent catalog_up always_tool_calls (param [question] (Some 2%Z) (Some false)).

(** The provider closes its stream before the first chunk. *)
Definition silent_run : Completion ReadableStream * State :=
  run_agent catalog_up silent (param [question] None None).

Definition five : list Message :=
  map (fun n => mkMessage (uuid n) "t1" (Some user) (Some "hello") None None)
      (seq 0 5).

(** The store fails on its second append and on no other. *)
Definition second_fails (n : nat) (m : Message) : option Exception :=
  if Nat.eqb n 1 then Some (Error "insert failed") else None.

End Scenario.

(** ** The tool service

    [src/services/tools.ts]: five functions over the table ["tools"] of the
    Supabase client.  A query is the record of the builder calls that made
    it; awaiting it is the business of the database, a parameter here, and
    every awaited query is logged. *)

Module Tools.

Record PostgrestError : Type := mkError {
  code : string;
  details : string
}.

(** [{ data, error }], as an awaited query resolves. *)
Record Response (D : Type) : Type := mkResponse {
  data : option D;
  error : option PostgrestError
}.
Arguments mkResponse {D} data error.
Arguments data {D} r.
Arguments error {D} r.

(** What a function of the service throws: [new Error(message)], or the
    error object of the database as it is. *)
Inductive Thrown : Type :=
  | ThrownError (message : string)
  | ThrownPostgrest (e : PostgrestError).

Inductive Outcome (A : Type) : Type :=
  | Returned (a : A)
  | Threw (t : Thrown).
Arguments Returned {A} a.
Arguments Threw {A} t.

(** The columns of every [select] of the file. *)
Definition tool_columns : list string :=
  ["id"; "name"; "description"; "schema"; "created_at"; "user_id";
   "execution_count"; "average_execution_time"; "credential"; "auth_type";
   "success_count"; "instruction_examples"].

Section Service.

(** [Tool] and [AuthType] of [@/types/Tool] are not among the sources. *)
Variable Tool : Type.
Variable AuthType : Type.

Record CreateToolInput : Type := mkCreate {
  create_name : string;
  create_description : string;
  create_schema : string;
  create_auth_type : AuthType;
  create_credential : option string;
  create_instruction_examples : list string
}.

Record UpdateToolInput : Type := mkUpdate {
  update_id : string;
  update_name : option string;
  update_description : option string;
  update_schema : option string;
  update_auth_type : option AuthType;
  update_credential : option string;
  update_execution_count : option Z;
  update_average_execution_time : option Z;
  update_success_count : option Z;
  update_instruction_examples : list string
}.

Record GetToolsOptions : Type := mkOptions {
  userId : option string;
  page : option Z;
  pageSize : option Z
}.

(** [insert([input])], [update({...input, id: undefined})], [delete()] or
    a plain [select]. *)
Inductive Verb : Type :=
  | Select
  | Insert (rows : list CreateToolInput)
  | Update (id_sent : option string) (input : UpdateToolInput)
  | Delete.

Record Query : Type := mkQuery {
  table : string;
  verb : Verb;
  selected : list string;
  ordered : option (string * bool);
  eq_filters : list (string * string);
  ranged : option (Z * Z);
  single : bool
}.

(** The database: what a query of many rows, of a single row, and a
    [delete] resolve to. *)
Variable await_rows : Query -> Response (list Tool).
Variable await_single : Query -> Response Tool.
Variable await_delete : Query -> option PostgrestError.

Definition createTool (input : CreateToolInput) (log : list Query)
  : Outcome (option Tool) * list Query :=
  let query := mkQuery "tools" (Insert [input]) tool_columns None [] None true in
  let r := await_single query in
  match error r with
  | Some e => (Threw (ThrownPostgrest e), log ++ [query])
  | None => (Returned (data r), log ++ [query])
  end.

(** The query [getTools] builds; [if (userId)] lets the empty string
    through as no filter. *)
Definition getTools_query (options : GetToolsOptions) : Query :=
  let pageSize := match pageSize options with Some n => n | None => 10%Z end in
  mkQuery "tools" Select tool_columns (Some ("created_at", false))
          (match userId options with
           | Some u => if String.eqb u EmptyString then [] else [("user_id", u)]
           | None => []
           end)
          (match page options with
           | Some page => Some ((page - 1) * pageSize, page * pageSize - 1)%Z
           | None => None
           end)
          false.

Definition getTools (options : GetToolsOptions) (log : list Query)
  : Outcome (list Tool) * list Query :=
  let query := getTools_query options in
  let r := await_rows query in
  match error r with
  | Some e => (Threw (ThrownPostgrest e), log ++ [query])
  | None =>
      (Returned (match data r with Some rows => rows | None => [] end),
       log ++ [query])
  end.

Definition getToolByID (toolID : string) (log : list Query)
  : Outcome (option Tool) * list Query :=
  if String.eqb toolID EmptyString then
    (Threw (ThrownError "Tool ID not specified"), log)
  else
    let query :=
      mkQuery "tools" Select tool_columns None [("id", toolID)] None true in
    let r := await_single query in
    match error r with
    | Some e =>
        if String.eqb (code e) "PGRST116" || String.eqb (code e) "22P02" then
          (Returned None, log ++ [query])
        else (Threw (ThrownPostgrest e), log ++ [query])
    | None => (Returned (data r), log ++ [query])
    end.

Definition updateTool (input : UpdateToolInput) (log : list Query)
  : Outcome (option Tool) * list Query :=
  if String.eqb (update_id input) EmptyString then
    (Threw (ThrownError "Tool ID not specified"), log)
  else
    let query :=
      mkQuery "tools" (Update None input) tool_columns None
              [("id", update_id input)] None true in
    let r := await_single query in
    match error r with
    | Some e => (Threw (ThrownPostgrest e), log ++ [query])
    | None => (Returned (data r), log ++ [query])
    end.

Definition deleteTool (id : string) (log : list Query)
  : Outcome unit * list Query :=
  if String.eqb id EmptyString then
    (Threw (ThrownError "Tool ID not specified"), log)
  else
    let query := mkQuery "tools" Delete [] None [("id", id)] None false in
    match await_delete query with
    | Some e => (Threw (ThrownPostgrest e), log ++ [query])
    | None => (Returned tt, log ++ [query])
    end.

End Service.

Arguments mkCreate {AuthType}.
Arguments mkUpdate {AuthType}.
Arguments update_id {AuthType}.
Arguments Select {AuthType}.
Arguments Insert {AuthType}.
Arguments Update {AuthType}.
Arguments Delete {AuthType}.
Arguments mkQuery {AuthType}.
Arguments table {AuthType}.
Arguments verb {AuthType}.
Arguments selected {AuthType}.
Arguments ordered {AuthType}.
Arguments eq_filters {AuthType}.
Arguments ranged {AuthType}.
Arguments single {AuthType}.
Arguments getTools_query {AuthType}.
Arguments createTool {Tool AuthType}.
Arguments getTools {Tool AuthType}.
Arguments getToolByID {Tool AuthType}.
Arguments updateTool {Tool AuthType}.
Arguments deleteTool {AuthType}.

End Tools.

(** ** More scenarios *)

Module Samples.

(** A uuid supply that never repeats: the [n]-th uuid is [n] strokes. *)
Fixpoint tally (n : nat) : string :=
  match n with
  | O => EmptyString
  | S k => ("|" ++ tally k)%string
  end.

(** [Scenario.tool_loop_run] with that supply. *)
Definition tally_run : Completion ReadableStream * State :=
  run tally DeltaMerger.mergeResponseObjects Scenario.processMessagesForLM
      Scenario.catalog_up Scenario.always_tool_calls None
      (new_ResponderAgent (Scenario.param [Scenario.question] (Some 2%Z) None))
      (new_State (Scenario.param [Scenario.question] (Some 2%Z) None)).

Definition agent : ResponderAgent :=
  new_ResponderAgent (Scenario.param [Scenario.question] (Some 2%Z) None).

Definition fresh : State :=
  new_State (Scenario.param [Scenario.question] (Some 2%Z) None).

(** A provider that is down. *)
Definition provider_down (n : nat) (req : CompletionRequest)
  : Exception + list ChatCompletionChunk :=
  inl (Error "503 Service Unavailable").

(** A chunk that is an object without [choices]. *)
Definition bare_chunk : ChatCompletionChunk := mkChunk None.

(** A database whose single-row queries fail with a server error. *)
Definition failing_single (q : Tools.Query unit) : Tools.Response string :=
  Tools.mkResponse None (Some (Tools.mkError "XX000" "internal error")).

(** A database with one row. *)
Definition one_row (q : Tools.Query unit) : Tools.Response (list string) :=
  Tools.mkResponse (Some ["tool"]) None.

Definition second_page : Tools.GetToolsOptions :=
  Tools.mkOptions None (Some 2%Z) (Some 10%Z).

End Samples.

(** ** Vocabulary of the statements *)

(** The tool messages a dispatch over [toolCalls] builds when the next uuid
    to be drawn is the [n]-th. *)
Fixpoint tool_messages (uuid : nat -> string) (this : ResponderAgent) (n : nat)
    (toolCalls : list ToolCall) : list Message :=
  match toolCalls with
  | [] => []
  | toolCall :: rest =>
      tool_message (uuid n) toolCall (threadID this)
      :: tool_messages uuid this (S n) rest
  end.

Definition set_uuid_count (n : nat) (s : State) : State :=
  mkState (currentMessages s) (steps s) n (catalog_queries s) (requests s)
          (enqueued s) (closed s) (console s) (waiting s).

Definition set_waiting (w : list (list Message)) (s : State) : State :=
  mkState (currentMessages s) (steps s) (uuid_count s) (catalog_queries s)
          (requests s) (enqueued s) (closed s) (console s) w.

Definition add_request (r : CompletionRequest) (s : State) : State :=
  mkState (currentMessages s) (steps s) (uuid_count s) (catalog_queries s)
          (requests s ++ [r]) (enqueued s) (closed s) (console s) (waiting s).

Definition add_events (events : list Event) (s : State) : State :=
  mkState (currentMessages s) (steps s) (uuid_count s) (catalog_queries s)
          (requests s) (enqueued s ++ events) (closed s) (console s)
          (waiting s).

(** The tool messages among the events handed to the controller. *)
Definition forwarded_results (events : list Event) : list Message :=
  flat_map (fun e => match e with ToolResult m => [m] | Fragment _ _ => [] end)
           events.

(** The tool-call lists the dispatcher was given, read off the console. *)
Definition dispatches (lines : list LogLine) : list (list ToolCall) :=
  flat_map (fun l => match l with LogToolCalls c => [c] | _ => [] end) lines.

(** The store takes every message of [ms] when they arrive from its [n]-th
    append on. *)
Fixpoint accepted (faults : nat -> Message -> option Exception) (n : nat)
    (ms : list Message) : bool :=
  match ms with
  | [] => true
  | m :: ms' =>
      match faults n m with
      | Some _ => false
      | None => accepted faults (S n) ms'
      end
  end.

(** The "[Message Saved]" line of a message. *)
Definition saved_line (message : Message) : LogLine :=
  LogSaved (role message) (js_or (content message) EmptyString)
           (tool_calls_note message).

(** Every chunk of the stream has a first choice. *)
Definition has_choice (chunk : ChatCompletionChunk) : bool :=
  match choices chunk with
  | Some (_ :: _) => true
  | _ => false
  end.

(** The finish indicator of a merged response. *)
Definition finish_of (o : ChatCompletionChunk) : option string :=
  match choices o with
  | Some (c :: _) => finish_reason c
  | _ => None
  end.

(** A stream the loop can read to the end, and whether its merged
    response asks for tool calls. *)
Definition readable (merge : ChatCompletionChunk -> ChatCompletionChunk -> ChatCompletionChunk)
    (stream : list ChatCompletionChunk) : bool :=
  forallb has_choice stream && has_choice (merged merge stream).

Definition signals_tool_calls
    (merge : ChatCompletionChunk -> ChatCompletionChunk -> ChatCompletionChunk)
    (stream : list ChatCompletionChunk) : bool :=
  readable merge stream &&
  match finish_of (merged merge stream) with
  | Some r => String.eqb r "tool_calls"
  | None => false
  end.

(** One round of the loop as the statements see it: the finalized message
    and the tool messages dispatched for it. *)
Definition Round : Type := (Message * list Message)%type.

(** The second component of every round holds tool messages only. *)
Definition dispatched_are_tool_messages (rounds : list Round) : Prop :=
  Forall (fun r : Round => Forall (fun m => role m = Some tool) (snd r)) rounds.

Definition produced (rounds : list Round) : list Message :=
  flat_map (fun r => fst r :: snd r) rounds.

Definition to_save (save : bool) (rounds : list Round) : list Message :=
  flat_map (fun r => fst r :: if save then snd r else []) rounds.

(** One iteration of the [while] of [processSteps] past its guard, as a
    computation of its own: it hands back the finalized message and, when
    the round went through the dispatcher, the tool messages.  The bookkeeping
    of [messagesToSave] stays with the loop, see [while_steps_eq]. *)
Definition iteration (uuid : nat -> string)
    (merge : ChatCompletionChunk -> ChatCompletionChunk -> ChatCompletionChunk)
    (create : nat -> CompletionRequest -> Exception + list ChatCompletionChunk)
    (CHATGPT_DEFAULT_MODEL : option string) (this : ResponderAgent)
  : M State (Message * option (list Message)) :=
  s <- get ;;
  log (LogStep (steps s) (length (currentMessages s))) ;;
  responseStream <- fetch create CHATGPT_DEFAULT_MODEL this ;;
  ' (newMessage, newChunkObject) <- processResponse uuid merge this responseStream ;;
  b <- hasToolCall newChunkObject ;;
  if negb b then
    push_currentMessages [newMessage] ;;
    ret (newMessage, None)
  else
    toolCallResults <- handleToolCalls uuid this newMessage ;;
    for_each (fun result => enqueue (ToolResult result)) toolCallResults ;;
    push_currentMessages (newMessage :: toolCallResults) ;;
    increment_steps ;;
    ret (newMessage, Some toolCallResults).

(** The tool messages of an iteration, none when it left the loop. *)
Definition results_of (o : option (list Message)) : list Message :=
  match o with
  | Some r => r
  | None => []
  end.

(** The tool calls [handleToolCalls] takes out of a finalized message. *)
Definition calls_of (newMessage : Message) : list ToolCall :=
  match role newMessage, tool_calls newMessage with
  | Some assistant, Some l => l
  | _, _ => []
  end.

(** The request [fetch] sends from state [s]. *)
Definition request_of (CHATGPT_DEFAULT_MODEL : option string)
    (this : ResponderAgent) (s : State) : CompletionRequest :=
  mkRequest (js_or (model this) (js_or CHATGPT_DEFAULT_MODEL "gpt-4o")) true
            (currentMessages s)
            (if (steps s <? maxToolCallSteps this)%Z then Some (tools this)
             else None).

(** The fragment [processResponse] forwards for one chunk under the message
    id [u]; a chunk without a first choice forwards nothing (the read
    throws there). *)
Definition fragment_of (u : string) (chunk : ChatCompletionChunk) : list Event :=
  match choices chunk with
  | Some (c :: _) => [Fragment (delta c) u]
  | _ => []
  end.

Definition fragments (u : string) (stream : list ChatCompletionChunk) : list Event :=
  flat_map (fragment_of u) stream.

(** The messages a run has appended to the history it started from. *)
Definition appended (before after : State) : list Message :=
  skipn (length (currentMessages before)) (currentMessages after).

(** The requests a run has added to those made before it. *)
Definition issued (before after : State) : list CompletionRequest :=
  skipn (length (requests before)) (requests after).

(** The request of round [k] (from 0) of a run that started from [history]
    and went through [rounds]. *)
Definition round_request (CHATGPT_DEFAULT_MODEL : option string)
    (this : ResponderAgent) (history : list Message) (rounds : list Round)
    (k : nat) : CompletionRequest :=
  mkRequest (js_or (model this) (js_or CHATGPT_DEFAULT_MODEL "gpt-4o")) true
            (history ++ produced (firstn k rounds)) (Some (tools this)).

(** The tool messages of a round, if any, answer the tool calls of its
    finalized message one by one. *)
Definition answers_calls (r : Round) : Prop :=
  snd r = []
  \/ map tool_call_id (snd r) =
     map (fun toolCall => Some (js_or (call_id toolCall) EmptyString))
         (calls_of (fst r)).

(** How many messages of [ms] the store takes, from its [n]-th append on,
    before its first fault. *)
Fixpoint stored_count (faults : nat -> Message -> option Exception) (n : nat)
    (ms : list Message) : nat :=
  match ms with
  | [] => 0
  | m :: ms' =>
      match faults n m with
      | Some _ => 0
      | None => S (stored_count faults (S n) ms')
      end
  end.

(** Two states that agree on everything but the relays handed to
    [waitUntil] and the closing of the stream. *)
Definition same_but_relay (a b : State) : Prop :=
  currentMessages a = currentMessages b
  /\ steps a = steps b
  /\ uuid_count a = uuid_count b
  /\ catalog_queries a = catalog_queries b
  /\ requests a = requests b
  /\ enqueued a = enqueued b
  /\ console a = console b.

(** The exception the store answers with to the message after the [k] it
    has taken from its [n]-th append on, if there is such a message and it
    is rejected. *)
Definition rejection (faults : nat -> Message -> option Exception) (n k : nat)
    (ms : list Message) : option Exception :=
  match nth_error ms k with
  | Some m => faults (n + k) m
  | None => None
  end.

(** [Number.MAX_SAFE_INTEGER].  The numbers of the source are doubles and
    this development keeps them as integers; up to this bound the sums and
    products of the source are exact, and the two agree. *)
Definition MAX_SAFE_INTEGER : Z := 2 ^ 53 - 1.

(** * Properties *)

(** ** The monad *)

Lemma bind_Throw {S A B : Type} (c : M S A) (k : A -> M S B) (s s' : S) (e : Exception) :
  c s = (Throw e, s') -> bind c k s = (Throw e, s').
Proof. intros H. unfold bind. rewrite H. reflexivity. Qed.

Lemma State_eta (s : State) :
  mkState (currentMessages s) (steps s) (uuid_count s) (catalog_queries s)
          (requests s) (enqueued s) (closed s) (console s) (waiting s) = s.
Proof. destruct s. reflexivity. Qed.

(** ** Dispatch *)

Section Dispatch.

Variable uuid : nat -> string.
Variable this : ResponderAgent.

Lemma map_toolCalls_spec (toolCalls : list ToolCall) :
  forall s,
    map_toolCalls uuid this toolCalls s =
    (Return (tool_messages uuid this (uuid_count s) toolCalls),
     set_uuid_count (uuid_count s + length toolCalls) s).
Proof.
  induction toolCalls as [|toolCall rest IH]; intros s.
  - simpl. unfold ret, set_uuid_count. rewrite Nat.add_0_r, State_eta.
    reflexivity.
  - change (map_toolCalls uuid this (toolCall :: rest))
      with (u <- uuidv4 uuid ;;
            result <- map_toolCalls uuid this rest ;;
            ret (tool_message u toolCall (threadID this) :: result)).
    cbn [tool_messages]. unfold bind at 1. cbn [uuidv4].
    unfold bind at 1. rewrite IH. cbn. unfold ret, set_uuid_count. cbn.
    do 2 f_equal. lia.
Qed.

Lemma tool_messages_length (toolCalls : list ToolCall) :
  forall n, length (tool_messages uuid this n toolCalls) = length toolCalls.
Proof. induction toolCalls; intros n; simpl; auto. Qed.

Lemma tool_messages_ids (toolCalls : list ToolCall) :
  forall n,
    map id (tool_messages uuid this n toolCalls) =
    map uuid (seq n (length toolCalls)).
Proof. induction toolCalls; intros n; simpl; f_equal; auto. Qed.

Lemma tool_messages_tool_call_ids (toolCalls : list ToolCall) :
  forall n,
    map tool_call_id (tool_messages uuid this n toolCalls) =
    map (fun toolCall => Some (js_or (call_id toolCall) EmptyString)) toolCalls.
Proof. induction toolCalls; intros n; simpl; f_equal; auto. Qed.

Lemma tool_messages_shape (toolCalls : list ToolCall) :
  forall n,
    Forall (fun m => role m = Some tool /\ thread_id m = threadID this)
           (tool_messages uuid this n toolCalls).
Proof. induction toolCalls; intros n; simpl; constructor; auto. Qed.

Lemma executeTools_spec (toolCalls : list ToolCall) (s : State) :
  executeTools uuid this toolCalls s =
  (Return (tool_messages uuid this (uuid_count s) toolCalls),
   set_uuid_count (uuid_count s + length toolCalls)
                  (snd (log (LogToolCalls toolCalls) s))).
Proof.
  unfold executeTools, bind. cbn [log modify]. rewrite map_toolCalls_spec.
  reflexivity.
Qed.

(** C7.  Dispatching a sequence of tool-call requests returns one tool
    message per request, in the order of the requests: the k-th message
    carries the k-th uuid drawn by this dispatch (so each id is a draw of
    its own from the generator, which moves on by the number of
    requests), [tool_call_id] is the id of the k-th request or the empty
    string when the request has none, the role is [tool] and [thread_id]
    is the thread of the agent. *)
Theorem executeTools_one_message_per_request (toolCalls : list ToolCall) (s : State) :
  match executeTools uuid this toolCalls s with
  | (Return result, s') =>
      length result = length toolCalls
      /\ map tool_call_id result =
         map (fun toolCall =>
                Some (match call_id toolCall with
                      | Some i => i
                      | None => EmptyString
                      end)) toolCalls
      /\ map id result = map uuid (seq (uuid_count s) (length toolCalls))
      /\ uuid_count s' = uuid_count s + length toolCalls
      /\ Forall (fun m => role m = Some tool /\ thread_id m = threadID this)
                result
  | _ => False
  end.
Proof.
  rewrite executeTools_spec.
  repeat split.
  - apply tool_messages_length.
  - rewrite tool_messages_tool_call_ids. apply map_ext. intros toolCall.
    unfold js_or. destruct (call_id toolCall) as [i|]; [|reflexivity].
    destruct (String.eqb_spec i EmptyString); congruence.
  - apply tool_messages_ids.
  - apply tool_messages_shape.
Qed.

End Dispatch.

(** ** The guard of [initialize] and the tool suggestion *)

Section Initialize.

Variable uuid : nat -> string.
Variable mergeResponseObjects :
  ChatCompletionChunk -> ChatCompletionChunk -> ChatCompletionChunk.
Variable processMessagesForLM : list Message -> option string.
Variable getToolsByPrompt : string -> Exception + list SuggestedTool.
Variable create : nat -> CompletionRequest -> Exception + list ChatCompletionChunk.
Variable CHATGPT_DEFAULT_MODEL : option string.

Let run_ :=
  run uuid mergeResponseObjects processMessagesForLM getToolsByPrompt create
      CHATGPT_DEFAULT_MODEL.

Lemma initialize_empty (s : State) :
  currentMessages s = [] ->
  initialize processMessagesForLM getToolsByPrompt s =
  (Throw (Error "Messages array is empty"), snd (log LogRunning s)).
Proof.
  intros H. unfold initialize, bind. cbn [log modify get]. cbn. rewrite H.
  reflexivity.
Qed.

Lemma initialize_catalog_down (s : State) (m : Message) (ms : list Message)
    (e : Exception) :
  currentMessages s = m :: ms ->
  getToolsByPrompt
    (js_or (processMessagesForLM (slice_last 5 (m :: ms))) EmptyString) = inl e ->
  initialize processMessagesForLM getToolsByPrompt s =
  (Throw e,
   mkState (m :: ms) (steps s) (uuid_count s)
           (catalog_queries s ++
            [js_or (processMessagesForLM (slice_last 5 (m :: ms))) EmptyString])
           (requests s) (enqueued s) (closed s) (console s ++ [LogRunning])
           (waiting s)).
Proof.
  intros H He. unfold initialize, bind. cbn [log modify get]. cbn. rewrite H.
  unfold bind, call_getToolsByPrompt. cbn.
  unfold slice_last in He. cbn in He. rewrite He. reflexivity.
Qed.

(** C6.  [run] on an empty history fails at once with the error of the
    guard, "Messages array is empty": the tool catalog has not been queried,
    no completion request has been made, nothing has been sent to the
    output and no relay has been started. *)
Theorem run_empty_history_fails (this : ResponderAgent) (s : State) :
  currentMessages s = [] ->
  fst (run_ this s) = Throw (Error "Messages array is empty")
  /\ catalog_queries (snd (run_ this s)) = catalog_queries s
  /\ requests (snd (run_ this s)) = requests s
  /\ enqueued (snd (run_ this s)) = enqueued s
  /\ waiting (snd (run_ this s)) = waiting s.
Proof.
  intros H. unfold run_, run.
  rewrite (bind_Throw _ _ _ _ _ (initialize_empty s H)).
  cbn. repeat split; reflexivity.
Qed.

(** C4, as the code has it.  With a non-empty history, a failure of the
    tool-catalog query is not caught: [run] fails with the very exception of
    the query, before any completion request; no round is performed, nothing
    reaches the output, no relay is started, and the console holds nothing
    about the failure. *)
Theorem run_tool_suggestion_failure_aborts (this : ResponderAgent) (s : State)
    (m : Message) (ms : list Message) (e : Exception) :
  currentMessages s = m :: ms ->
  getToolsByPrompt
    (js_or (processMessagesForLM (slice_last 5 (m :: ms))) EmptyString) = inl e ->
  fst (run_ this s) = Throw e
  /\ requests (snd (run_ this s)) = requests s
  /\ enqueued (snd (run_ this s)) = enqueued s
  /\ waiting (snd (run_ this s)) = waiting s
  /\ currentMessages (snd (run_ this s)) = currentMessages s
  /\ console (snd (run_ this s)) = console s ++ [LogRunning].
Proof.
  intros H He. unfold run_, run.
  rewrite (bind_Throw _ _ _ _ _ (initialize_catalog_down s m ms e H He)).
  cbn. rewrite H. repeat split; reflexivity.
Qed.

End Initialize.

Lemma run_empty_history_fails_witness :
  currentMessages (new_State (Scenario.param [] None None)) = []
  /\ fst (Scenario.run_agent Scenario.catalog_up Scenario.always_stop
            (Scenario.param [] None None))
     = Throw (Error "Messages array is empty").
Proof.
  split; [reflexivity|].
  exact (proj1 (run_empty_history_fails
                  Scenario.uuid DeltaMerger.mergeResponseObjects
                  Scenario.processMessagesForLM Scenario.catalog_up
                  Scenario.always_stop None
                  (new_ResponderAgent (Scenario.param [] None None))
                  (new_State (Scenario.param [] None None)) eq_refl)).
Defined.

Lemma run_tool_suggestion_failure_aborts_witness :
  fst (Scenario.run_agent Scenario.catalog_down Scenario.always_stop
         (Scenario.param [Scenario.question] None None))
  = Throw (Error "fetch failed").
Proof.
  exact (proj1 (run_tool_suggestion_failure_aborts
                  Scenario.uuid DeltaMerger.mergeResponseObjects
                  Scenario.processMessagesForLM Scenario.catalog_down
                  Scenario.always_stop None
                  (new_ResponderAgent (Scenario.param [Scenario.question] None None))
                  (new_State (Scenario.param [Scenario.question] None None))
                  Scenario.question [] (Error "fetch failed") eq_refl eq_refl)).
Defined.

(** C4, as the spec has it, fails: with the catalog down the caller of
    [run] gets the catalog's error, and not a stream. *)
Lemma run_tool_suggestion_failure_counterexample :
  fst Scenario.catalog_down_run = Throw (Error "fetch failed")
  /\ fst Scenario.catalog_down_run <> Return StreamClosed
  /\ requests (snd Scenario.catalog_down_run) = []
  /\ console (snd Scenario.catalog_down_run) = [LogRunning].
Proof.
  vm_compute. repeat split; try reflexivity. discriminate.
Qed.

(** ** Finalizing a round's message *)

Section ProcessResponse.

Variable uuid : nat -> string.
Variable mergeResponseObjects :
  ChatCompletionChunk -> ChatCompletionChunk -> ChatCompletionChunk.
Variable this : ResponderAgent.

(** Reading a stream whose chunks all have a first choice ends with the
    merged object, one fragment forwarded per chunk. *)
Lemma read_chunks_readable (u : string) (stream : list ChatCompletionChunk) :
  forall acc s,
    forallb has_choice stream = true ->
    exists events,
      read_chunks mergeResponseObjects u stream acc s =
      (Return (fold_left mergeResponseObjects stream acc),
       mkState (currentMessages s) (steps s) (uuid_count s) (catalog_queries s)
               (requests s) (enqueued s ++ events) (closed s) (console s)
               (waiting s))
      /\ forwarded_results events = []
      /\ length events = length stream.
Proof.
  induction stream as [|chunk rest IH]; intros acc s Hs.
  - exists []. cbn. rewrite app_nil_r, State_eta. auto.
  - cbn in Hs. apply andb_true_iff in Hs as [Hc Hrest].
    unfold has_choice in Hc.
    destruct (choices chunk) as [[|c l]|] eqn:Hchunk; try discriminate.
    destruct (IH (mergeResponseObjects acc chunk)
                 (snd (enqueue (Fragment (delta c) u) s)) Hrest)
      as (events & Hrun & Hfw & Hlen).
    exists (Fragment (delta c) u :: events).
    cbn [read_chunks]. unfold bind at 1. unfold first_choice. rewrite Hchunk.
    unfold ret at 1. unfold bind at 1. cbn [enqueue modify].
    cbn [enqueue modify snd] in Hrun. rewrite Hrun. cbn.
    rewrite <- app_assoc. cbn. repeat split; auto.
Qed.

Lemma processResponse_readable (stream : list ChatCompletionChunk) (s : State) :
  readable mergeResponseObjects stream = true ->
  exists c l events,
    choices (merged mergeResponseObjects stream) = Some (c :: l)
    /\ processResponse uuid mergeResponseObjects this stream s =
       (Return (message_of_delta (delta c) (uuid (uuid_count s)) (threadID this),
                merged mergeResponseObjects stream),
        mkState (currentMessages s) (steps s) (S (uuid_count s))
                (catalog_queries s) (requests s) (enqueued s ++ events)
                (closed s) (console s) (waiting s))
    /\ forwarded_results events = [].
Proof.
  intros Hr. unfold readable in Hr. apply andb_true_iff in Hr as [Hs Hm].
  unfold has_choice in Hm.
  destruct (choices (merged mergeResponseObjects stream)) as [[|c l]|] eqn:Hc;
    try discriminate.
  destruct (read_chunks_readable (uuid (uuid_count s)) stream empty_object
              (snd (uuidv4 uuid s)) Hs) as (events & Hrun & Hfw & _).
  exists c, l, events. split; [reflexivity|]. split; [|exact Hfw].
  unfold processResponse. unfold bind at 1. cbn [uuidv4].
  cbn [uuidv4 snd] in Hrun. unfold bind at 1. rewrite Hrun.
  fold (merged mergeResponseObjects stream).
  unfold bind, first_choice. rewrite Hc. reflexivity.
Qed.

(** C10.  [processResponse] starts from the empty object and reads
    [choices[0]] of what it has accumulated once the stream is done: on a
    stream that closes before its first chunk there is nothing to read, and
    the call throws a [TypeError] where it would have built the message.
    Only the uuid of the round has been drawn.  In [run] the exception ends
    the round and errors the stream: no message is appended and no relay is
    started. *)
Theorem processResponse_without_chunks_throws (s : State) :
  processResponse uuid mergeResponseObjects this [] s =
  (Throw (TypeError "Cannot read properties of undefined (reading '0')"),
   set_uuid_count (S (uuid_count s)) s)
  /\ fst Scenario.silent_run =
     Return (StreamErrored
               (TypeError "Cannot read properties of undefined (reading '0')"))
  /\ currentMessages (snd Scenario.silent_run) = [Scenario.question]
  /\ waiting (snd Scenario.silent_run) = [].
Proof.
  split; [reflexivity|]. vm_compute. repeat split; reflexivity.
Qed.

(** A message comes out of [processResponse] only if the stream held a
    chunk. *)
Lemma processResponse_Return_nonempty (stream : list ChatCompletionChunk)
    (s s' : State) (r : Message * ChatCompletionChunk) :
  processResponse uuid mergeResponseObjects this stream s = (Return r, s') ->
  stream <> [].
Proof.
  intros H ->. cbn in H. discriminate.
Qed.

End ProcessResponse.

(** ** The persistence relay *)

Section RelayProperties.

Variable faults : nat -> Message -> option Exception.

Let save_one (message : Message) : M StoreState unit :=
  createMessage faults message ;; relay_log (saved_line message).

Lemma save_accepted (ms : list Message) :
  forall st,
    accepted faults (attempts st) ms = true ->
    for_each save_one ms st =
    (Return tt,
     mkStore (stored st ++ ms) (attempts st + length ms)
             (relay_console st ++ map saved_line ms)).
Proof.
  induction ms as [|m ms IH]; intros st Hacc.
  - cbn. unfold ret. rewrite !app_nil_r, Nat.add_0_r. destruct st; reflexivity.
  - cbn in Hacc. destruct (faults (attempts st) m) eqn:Hm; [discriminate|].
    cbn [for_each]. unfold bind at 1. unfold save_one at 1.
    unfold bind at 1. unfold createMessage. rewrite Hm. cbn [relay_log modify].
    rewrite IH by exact Hacc. cbn. rewrite <- !app_assoc. cbn.
    do 2 f_equal. lia.
Qed.

Lemma save_fault (pre post : list Message) (m : Message) (e : Exception) :
  forall st,
    accepted faults (attempts st) pre = true ->
    faults (attempts st + length pre) m = Some e ->
    for_each save_one (pre ++ m :: post) st =
    (Throw e,
     mkStore (stored st ++ pre) (S (attempts st + length pre))
             (relay_console st ++ map saved_line pre)).
Proof.
  induction pre as [|p pre IH]; intros st Hacc He.
  - cbn in He. rewrite Nat.add_0_r in He.
    cbn [app for_each]. unfold bind at 1. unfold save_one at 1.
    unfold bind at 1. unfold createMessage. rewrite He. cbn.
    rewrite !app_nil_r, Nat.add_0_r. reflexivity.
  - cbn in Hacc. destruct (faults (attempts st) p) eqn:Hp; [discriminate|].
    cbn [app for_each]. unfold bind at 1. unfold save_one at 1.
    unfold bind at 1. unfold createMessage. rewrite Hp. cbn [relay_log modify].
    rewrite IH.
    + cbn. rewrite <- !app_assoc. cbn. do 3 f_equal. lia.
    + exact Hacc.
    + cbn [attempts]. cbn in He. rewrite <- He. f_equal. lia.
Qed.

Lemma for_each_save_completes (ms : list Message) :
  forall st, fst (for_each save_one ms st) <> OutOfFuel.
Proof.
  induction ms as [|m ms IH]; intros st.
  - cbn. discriminate.
  - cbn [for_each]. unfold bind at 1. unfold save_one at 1. unfold bind at 1.
    unfold createMessage. destruct (faults (attempts st) m).
    + cbn. discriminate.
    + cbn [relay_log modify]. apply IH.
Qed.

Lemma saveMessages_eq (ms : list Message) :
  saveMessages faults ms =
  try_catch (for_each save_one ms) (fun error => relay_log (LogSaveFailed error)).
Proof. reflexivity. Qed.

(** The relay never throws, whatever the store does. *)
Lemma saveMessages_never_throws (ms : list Message) (st : StoreState) :
  fst (saveMessages faults ms st) = Return tt.
Proof.
  rewrite saveMessages_eq. unfold try_catch.
  pose proof (for_each_save_completes ms st) as H.
  destruct (for_each save_one ms st) as [[[]|e|] st']; cbn in *;
    try reflexivity. exfalso. apply H. reflexivity.
Qed.

(** C2, as the code has it.  The [try] of [saveMessages] is around the
    whole loop.  When the store takes the messages [pre] and fails on the
    next one, [m], the exception is caught and logged and the relay returns
    normally; [pre] is stored, and the store is not called again: none of
    the messages after [m] is attempted. *)
Theorem saveMessages_stops_at_first_failure (pre post : list Message)
    (m : Message) (e : Exception) (st : StoreState) :
  accepted faults (attempts st) pre = true ->
  faults (attempts st + length pre) m = Some e ->
  saveMessages faults (pre ++ m :: post) st =
  (Return tt,
   mkStore (stored st ++ pre) (S (attempts st + length pre))
           (relay_console st ++ map saved_line pre ++ [LogSaveFailed e])).
Proof.
  intros Hacc He. rewrite saveMessages_eq. unfold try_catch.
  rewrite (save_fault pre post m e st Hacc He). cbn.
  rewrite app_assoc. reflexivity.
Qed.

End RelayProperties.

Lemma saveMessages_stops_at_first_failure_witness :
  saveMessages Scenario.second_fails Scenario.five empty_store =
  (Return tt,
   mkStore (firstn 1 Scenario.five) 2
           [saved_line (hd Scenario.earlier Scenario.five);
            LogSaveFailed (Error "insert failed")]).
Proof.
  exact (saveMessages_stops_at_first_failure Scenario.second_fails
           (firstn 1 Scenario.five) (skipn 2 Scenario.five)
           (nth 1 Scenario.five Scenario.earlier) (Error "insert failed")
           empty_store eq_refl eq_refl).
Defined.

(** C2, as the spec has it, fails: when the store fails on the second of
    five messages, the first is all that is stored; the third, fourth and
    fifth are not. *)
Lemma saveMessages_second_of_five_counterexample :
  stored (snd (saveMessages Scenario.second_fails Scenario.five empty_store))
  = firstn 1 Scenario.five
  /\ ~ incl (skipn 2 Scenario.five)
            (stored (snd (saveMessages Scenario.second_fails Scenario.five
                                       empty_store))).
Proof.
  split; [reflexivity|].
  intros H. specialize (H (nth 2 Scenario.five Scenario.earlier)).
  cbn in H. destruct H as [H|[]]; [auto|]. discriminate H.
Qed.

(** ** The loop *)

Section Loop.

Variable uuid : nat -> string.
Variable mergeResponseObjects :
  ChatCompletionChunk -> ChatCompletionChunk -> ChatCompletionChunk.
Variable processMessagesForLM : list Message -> option string.
Variable getToolsByPrompt : string -> Exception + list SuggestedTool.
Variable create : nat -> CompletionRequest -> Exception + list ChatCompletionChunk.
Variable CHATGPT_DEFAULT_MODEL : option string.

Let iteration_ := iteration uuid mergeResponseObjects create CHATGPT_DEFAULT_MODEL.
Let while_steps_ := while_steps uuid mergeResponseObjects create CHATGPT_DEFAULT_MODEL.
Let processSteps_ := processSteps uuid mergeResponseObjects create CHATGPT_DEFAULT_MODEL.
Let run_ :=
  run uuid mergeResponseObjects processMessagesForLM getToolsByPrompt create
      CHATGPT_DEFAULT_MODEL.

Lemma for_each_enqueue (results : list Message) :
  forall s,
    for_each (fun result => enqueue (ToolResult result)) results s =
    (Return tt,
     mkState (currentMessages s) (steps s) (uuid_count s) (catalog_queries s)
             (requests s) (enqueued s ++ map ToolResult results) (closed s)
             (console s) (waiting s)).
Proof.
  induction results as [|r results IH]; intros s.
  - cbn. unfold ret. rewrite app_nil_r, State_eta. reflexivity.
  - cbn [for_each]. unfold bind. cbn [enqueue modify]. rewrite IH. cbn.
    rewrite <- app_assoc. reflexivity.
Qed.

Lemma fetch_eq (this : ResponderAgent) (s : State) :
  fetch create CHATGPT_DEFAULT_MODEL this s =
  (match create (length (requests s)) (request_of CHATGPT_DEFAULT_MODEL this s) with
   | inl e => Throw e
   | inr stream => Return stream
   end,
   add_request (request_of CHATGPT_DEFAULT_MODEL this s) s).
Proof.
  unfold fetch, bind, call_create, request_of, add_request. cbn [get].
  destruct (create _ _); reflexivity.
Qed.

(** Whatever the stream, reading it only forwards fragments. *)
Lemma read_chunks_effects (u : string) (stream : list ChatCompletionChunk) :
  forall acc s,
    exists c events,
      read_chunks mergeResponseObjects u stream acc s = (c, add_events events s)
      /\ forwarded_results events = []
      /\ c <> OutOfFuel.
Proof.
  induction stream as [|chunk rest IH]; intros acc s.
  - exists (Return acc), []. cbn. unfold ret, add_events.
    rewrite app_nil_r, State_eta. repeat split. discriminate.
  - cbn [read_chunks]. unfold bind at 1. unfold first_choice.
    destruct (choices chunk) as [[|c l]|].
    + eexists (Throw _), []. cbn. unfold add_events.
      rewrite app_nil_r, State_eta. repeat split. discriminate.
    + destruct (IH (mergeResponseObjects acc chunk)
                   (add_events [Fragment (delta c) u] s))
        as (c' & events & Hrun & Hfw & Hc).
      exists c', (Fragment (delta c) u :: events).
      unfold ret at 1. unfold bind at 1. cbn [enqueue modify].
      fold (add_events [Fragment (delta c) u] s). rewrite Hrun.
      unfold add_events. cbn. rewrite <- app_assoc. auto.
    + eexists (Throw _), []. cbn. unfold add_events.
      rewrite app_nil_r, State_eta. repeat split. discriminate.
Qed.

Lemma processResponse_effects (this : ResponderAgent)
    (stream : list ChatCompletionChunk) (s : State) :
  exists c events,
    processResponse uuid mergeResponseObjects this stream s =
    (c, add_events events (set_uuid_count (S (uuid_count s)) s))
    /\ forwarded_results events = []
    /\ c <> OutOfFuel.
Proof.
  unfold processResponse. unfold bind at 1. cbn [uuidv4].
  fold (set_uuid_count (S (uuid_count s)) s).
  destruct (read_chunks_effects (uuid (uuid_count s)) stream empty_object
              (set_uuid_count (S (uuid_count s)) s))
    as (c & events & Hrun & Hfw & Hc).
  unfold bind at 1. rewrite Hrun.
  destruct c as [o|e|]; [| |congruence].
  - unfold bind, first_choice.
    destruct (choices o) as [[|c l]|]; cbn;
      eexists; exists events;
      (split; [reflexivity|split; [exact Hfw|discriminate]]).
  - exists (Throw e), events.
    split; [reflexivity|split; [exact Hfw|discriminate]].
Qed.

Lemma hasToolCall_effects (o : ChatCompletionChunk) (s : State) :
  exists c, hasToolCall o s = (c, s) /\ c <> OutOfFuel.
Proof.
  unfold hasToolCall, bind, first_choice.
  destruct (choices o) as [[|c l]|]; cbn; eexists; split;
    try reflexivity; discriminate.
Qed.

Lemma hasToolCall_eq (o : ChatCompletionChunk) (s : State) :
  has_choice o = true ->
  hasToolCall o s =
  (Return (match finish_of o with
           | Some r => String.eqb r "tool_calls"
           | None => false
           end), s).
Proof.
  unfold has_choice, hasToolCall, finish_of, bind, first_choice.
  destruct (choices o) as [[|c l]|]; try discriminate. reflexivity.
Qed.

(** The loop is the iteration, repeated under the guard, with
    [messagesToSave] taking the finalized message every time and the tool
    messages when [save] is set. *)
Lemma while_steps_eq (fuel : nat) (this : ResponderAgent)
    (messagesToSave : list Message) (s : State) :
  while_steps_ (S fuel) this messagesToSave s =
  if (steps s <? maxToolCallSteps this)%Z then
    match iteration_ this s with
    | (Return (newMessage, None), s') =>
        (Return (messagesToSave ++ [newMessage]), s')
    | (Return (newMessage, Some toolCallResults), s') =>
        while_steps_ fuel this
          (if save this then (messagesToSave ++ [newMessage]) ++ toolCallResults
           else messagesToSave ++ [newMessage]) s'
    | (Throw e, s') => (Throw e, s')
    | (OutOfFuel, s') => (OutOfFuel, s')
    end
  else (Return messagesToSave, s).
Proof.
  unfold while_steps_, iteration_, iteration. cbn [while_steps].
  unfold bind, handleToolCalls. cbn [get log modify].
  destruct (steps s <? maxToolCallSteps this)%Z; [|reflexivity].
  match goal with
  | |- context [fetch ?c ?m ?t ?x] =>
      destruct (fetch c m t x) as [[stream| |] s2]
  end; try reflexivity.
  destruct (processResponse uuid mergeResponseObjects this stream s2)
    as [[[newMessage newChunkObject]| |] s3]; try reflexivity.
  destruct (hasToolCall newChunkObject s3) as [[[|]| |] s4]; try reflexivity.
  cbn [negb]. unfold bind. rewrite executeTools_spec, for_each_enqueue.
  reflexivity.
Qed.

Lemma forwarded_results_app (a b : list Event) :
  forwarded_results (a ++ b) = forwarded_results a ++ forwarded_results b.
Proof. apply flat_map_app. Qed.

Lemma forwarded_results_ToolResult (l : list Message) :
  forwarded_results (map ToolResult l) = l.
Proof. induction l; cbn; f_equal; auto. Qed.

Lemma dispatches_app (a b : list LogLine) :
  dispatches (a ++ b) = dispatches a ++ dispatches b.
Proof. apply flat_map_app. Qed.

(** What one iteration does to the state. *)
Lemma iteration_effects (this : ResponderAgent) (s : State) :
  match iteration_ this s with
  | (Return (m, o), s') =>
      currentMessages s' = currentMessages s ++ m :: results_of o
      /\ steps s' = (steps s + match o with Some _ => 1 | None => 0 end)%Z
      /\ requests s' = requests s ++ [request_of CHATGPT_DEFAULT_MODEL this s]
      /\ forwarded_results (enqueued s') =
         forwarded_results (enqueued s) ++ results_of o
      /\ dispatches (console s') =
         dispatches (console s)
         ++ match o with Some _ => [calls_of m] | None => [] end
      /\ waiting s' = waiting s
      /\ catalog_queries s' = catalog_queries s
      /\ closed s' = closed s
      /\ Forall (fun r => role r = Some tool) (results_of o)
  | (Throw e, s') =>
      currentMessages s' = currentMessages s
      /\ steps s' = steps s
      /\ waiting s' = waiting s
      /\ closed s' = closed s
  | (OutOfFuel, _) => False
  end.
Proof.
  unfold iteration_, iteration, bind, handleToolCalls. cbn [get log modify].
  rewrite fetch_eq.
  destruct (create _ _) as [e|stream]; [cbn; auto|].
  match goal with
  | |- context [processResponse ?u ?m ?t ?st ?x] =>
      destruct (processResponse_effects t st x) as (c & events & H & Hfw & Hc);
      rewrite H; clear H
  end.
  destruct c as [[m o]|e|]; [|cbn; auto|congruence].
  match goal with
  | |- context [hasToolCall ?o ?x] =>
      destruct (hasToolCall_effects o x) as (c & H & Hc');
      rewrite H; clear H
  end.
  destruct c as [[|]|e|]; [| |cbn; auto|congruence].
  - cbn [negb]. unfold bind. rewrite executeTools_spec, for_each_enqueue.
    cbn. rewrite !forwarded_results_app, Hfw, forwarded_results_ToolResult.
    rewrite !dispatches_app, app_nil_r. cbn. rewrite app_nil_r.
    repeat split; auto.
    eapply Forall_impl; [|apply tool_messages_shape]. cbn. tauto.
  - cbn. rewrite forwarded_results_app, Hfw, !app_nil_r.
    rewrite dispatches_app. cbn. rewrite !app_nil_r. repeat split; auto; lia.
Qed.

Lemma iteration_set_save (b : bool) (this : ResponderAgent) :
  iteration_ (set_save b this) = iteration_ this.
Proof. reflexivity. Qed.

Lemma set_save_save (this : ResponderAgent) : set_save (save this) this = this.
Proof. destruct this. reflexivity. Qed.

(** The loop always comes back: [steps] goes up by one in every iteration
    that does not leave the loop. *)
Lemma while_steps_total (fuel : nat) :
  forall this l s,
    Z.to_nat (maxToolCallSteps this - steps s) < fuel ->
    fst (while_steps_ fuel this l s) <> OutOfFuel.
Proof.
  induction fuel as [|fuel IH]; intros this l s Hfuel; [lia|].
  rewrite while_steps_eq.
  destruct (steps s <? maxToolCallSteps this)%Z eqn:Hguard;
    [|cbn; discriminate].
  apply Z.ltb_lt in Hguard.
  pose proof (iteration_effects this s) as He.
  destruct (iteration_ this s) as [[[m [r|]]|e|] s1];
    try (cbn; discriminate); [|contradiction].
  destruct He as (_ & Hsteps & _). apply IH. rewrite Hsteps. lia.
Qed.

(** Two loops that differ in the [save] flag only go through the same
    rounds and end in the same state; what differs is [messagesToSave]. *)
Lemma while_steps_save_flag (fuel : nat) :
  forall this lt lf s,
    snd (while_steps_ fuel (set_save true this) lt s) =
    snd (while_steps_ fuel (set_save false this) lf s)
    /\ match fst (while_steps_ fuel (set_save true this) lt s),
             fst (while_steps_ fuel (set_save false this) lf s) with
       | Return lt', Return lf' =>
           exists rounds : list Round,
             lt' = lt ++ produced rounds
             /\ lf' = lf ++ map fst rounds
             /\ currentMessages (snd (while_steps_ fuel (set_save false this) lf s))
                = currentMessages s ++ produced rounds
             /\ forwarded_results
                  (enqueued (snd (while_steps_ fuel (set_save false this) lf s)))
                = forwarded_results (enqueued s) ++ flat_map snd rounds
             /\ waiting (snd (while_steps_ fuel (set_save false this) lf s))
                = waiting s
             /\ closed (snd (while_steps_ fuel (set_save false this) lf s))
                = closed s
             /\ dispatched_are_tool_messages rounds
       | Throw e, Throw e' => e = e'
       | OutOfFuel, OutOfFuel => True
       | _, _ => False
       end.
Proof.
  induction fuel as [|fuel IH]; intros this lt lf s; [cbn; auto|].
  rewrite !while_steps_eq, !iteration_set_save. cbn [set_save maxToolCallSteps save].
  destruct (steps s <? maxToolCallSteps this)%Z.
  - pose proof (iteration_effects this s) as He.
    destruct (iteration_ this s) as [[[m [r|]]|e|] s1]; [| |cbn; auto|contradiction].
    + destruct He as (Hm & _ & _ & Hfw & _ & Hw & _ & Hc & Ht).
      destruct (IH this ((lt ++ [m]) ++ r) (lf ++ [m]) s1) as [Hs Hr].
      split; [exact Hs|].
      destruct (fst (while_steps_ fuel (set_save true this) ((lt ++ [m]) ++ r) s1));
        destruct (fst (while_steps_ fuel (set_save false this) (lf ++ [m]) s1));
        auto.
      destruct Hr as (rounds & -> & -> & Hm' & Hfw' & Hw' & Hc' & Ht').
      exists ((m, r) :: rounds). cbn [produced flat_map map fst snd].
      fold (produced rounds).
      rewrite Hm', Hfw', Hw', Hc', Hm, Hfw, Hw, Hc. cbn [results_of].
      repeat split; auto; rewrite <- ?app_assoc; cbn; auto.
      constructor; auto.
    + destruct He as (Hm & _ & _ & Hfw & _ & Hw & _ & Hc & _).
      cbn. split; [reflexivity|]. exists [(m, [])]. cbn.
      cbn [results_of] in Hm, Hfw.
      repeat split; auto. repeat constructor.
  - cbn. split; [reflexivity|]. exists []. cbn. rewrite !app_nil_r.
    repeat split; try reflexivity. constructor.
Qed.

Lemma to_save_true (rounds : list Round) : to_save true rounds = produced rounds.
Proof. reflexivity. Qed.

Lemma to_save_false (rounds : list Round) : to_save false rounds = map fst rounds.
Proof. induction rounds; cbn; f_equal; auto. Qed.

(** What the loop hands back, whatever the flag. *)
Lemma while_steps_rounds (fuel : nat) (this : ResponderAgent)
    (l : list Message) (s : State) :
  match fst (while_steps_ fuel this l s) with
  | Return l' =>
      exists rounds : list Round,
        l' = l ++ to_save (save this) rounds
        /\ currentMessages (snd (while_steps_ fuel this l s))
           = currentMessages s ++ produced rounds
        /\ forwarded_results (enqueued (snd (while_steps_ fuel this l s)))
           = forwarded_results (enqueued s) ++ flat_map snd rounds
        /\ waiting (snd (while_steps_ fuel this l s)) = waiting s
        /\ closed (snd (while_steps_ fuel this l s)) = closed s
        /\ dispatched_are_tool_messages rounds
  | _ => True
  end.
Proof.
  destruct (while_steps_save_flag fuel this l l s) as [Hs Hr].
  destruct (save this) eqn:Hsave.
  - assert (E : set_save true this = this)
      by (rewrite <- Hsave; apply set_save_save).
    rewrite E in Hs, Hr. rewrite Hs.
    destruct (fst (while_steps_ fuel this l s)); auto.
    destruct (fst (while_steps_ fuel (set_save false this) l s));
      try contradiction.
    destruct Hr as (rounds & -> & _ & H). exists rounds. auto.
  - assert (E : set_save false this = this)
      by (rewrite <- Hsave; apply set_save_save).
    rewrite E in Hs, Hr.
    destruct (fst (while_steps_ fuel this l s)); auto;
      destruct (fst (while_steps_ fuel (set_save true this) l s));
      try contradiction; auto.
    destruct Hr as (rounds & _ & -> & H). exists rounds.
    rewrite to_save_false. auto.
Qed.

Lemma processSteps_eq (this : ResponderAgent) (s : State) :
  processSteps_ this s =
  match while_steps_ (S (Z.to_nat (maxToolCallSteps this - steps s))) this
                     (match last_element (currentMessages s) with
                      | Some m => [m]
                      | None => []
                      end) s with
  | (Return messagesToSave, s') =>
      (Return tt, set_waiting (waiting s' ++ [messagesToSave]) s')
  | (Throw e, s') => (Throw e, s')
  | (OutOfFuel, s') => (OutOfFuel, s')
  end.
Proof. reflexivity. Qed.

Lemma start_eq (this : ResponderAgent) (s : State) :
  start uuid mergeResponseObjects create CHATGPT_DEFAULT_MODEL this s =
  match processSteps_ this s with
  | (Return _, s') => (Return StreamClosed, snd (close s'))
  | (Throw e, s') => (Return (StreamErrored e), s')
  | (OutOfFuel, s') => (OutOfFuel, s')
  end.
Proof.
  unfold start, bind, finalize. fold processSteps_.
  destruct (processSteps_ this s) as [[[]| |] s']; reflexivity.
Qed.

(** [processSteps] always comes back. *)
Lemma processSteps_total (this : ResponderAgent) (s : State) :
  fst (processSteps_ this s) <> OutOfFuel.
Proof.
  rewrite processSteps_eq.
  match goal with
  | |- context [while_steps_ ?f ?t ?l ?x] =>
      pose proof (while_steps_total f t l x) as H;
      destruct (while_steps_ f t l x) as [[l'|e|] s']
  end; cbn in *; try discriminate.
  exfalso. apply H; [lia|reflexivity].
Qed.

(** What [initialize] leaves behind. *)
Lemma initialize_effects (s : State) :
  match initialize processMessagesForLM getToolsByPrompt s with
  | (Return _, s0) =>
      currentMessages s <> []
      /\ currentMessages s0 = currentMessages s
      /\ steps s0 = steps s
      /\ uuid_count s0 = uuid_count s
      /\ requests s0 = requests s
      /\ enqueued s0 = enqueued s
      /\ closed s0 = closed s
      /\ waiting s0 = waiting s
      /\ dispatches (console s0) = dispatches (console s)
  | (Throw e, s0) =>
      requests s0 = requests s /\ enqueued s0 = enqueued s
      /\ waiting s0 = waiting s /\ currentMessages s0 = currentMessages s
  | (OutOfFuel, _) => False
  end.
Proof.
  unfold initialize, bind, call_getToolsByPrompt. cbn [log modify get].
  cbn [currentMessages].
  destruct (currentMessages s) as [|m ms] eqn:Hm; [cbn; auto|].
  destruct (getToolsByPrompt _); cbn; [auto|].
  rewrite !dispatches_app. cbn. rewrite !app_nil_r.
  repeat split; auto. discriminate.
Qed.

Lemma run_eq (this : ResponderAgent) (s : State) :
  run_ this s =
  match initialize processMessagesForLM getToolsByPrompt s with
  | (Return _, s0) =>
      start uuid mergeResponseObjects create CHATGPT_DEFAULT_MODEL this s0
  | (Throw e, s0) => (Throw e, s0)
  | (OutOfFuel, s0) => (OutOfFuel, s0)
  end.
Proof. reflexivity. Qed.

Lemma last_element_nonempty {A : Type} (l : list A) :
  l <> [] -> exists x, last_element l = Some x.
Proof.
  intros Hl. unfold last_element.
  destruct (nth_error l (length l - 1)) as [x|] eqn:Hx; [eauto|].
  apply nth_error_None in Hx. destruct l; [congruence|cbn in Hx; lia].
Qed.

(** C5, as the code has it.  When a run completes, one relay has been
    handed to [waitUntil] and is not awaited: the stream is closed with the
    relay still on the waiting list.  Its messages are the last message of
    the history the run started from, followed round by round by the
    finalized message of the round and, when [save] is set, by the tool
    messages dispatched in that round; the rounds are those whose messages
    were appended to the history and whose tool messages were forwarded to
    the output. *)
Theorem run_relays_last_message_and_rounds (this : ResponderAgent) (s : State) :
  fst (run_ this s) = Return StreamClosed ->
  exists (last : Message) (rounds : list Round),
    last_element (currentMessages s) = Some last
    /\ waiting (snd (run_ this s)) =
       waiting s ++ [last :: to_save (save this) rounds]
    /\ currentMessages (snd (run_ this s)) = currentMessages s ++ produced rounds
    /\ forwarded_results (enqueued (snd (run_ this s))) =
       forwarded_results (enqueued s) ++ flat_map snd rounds
    /\ dispatched_are_tool_messages rounds
    /\ closed (snd (run_ this s)) = true.
Proof.
  rewrite run_eq. pose proof (initialize_effects s) as Hi.
  destruct (initialize processMessagesForLM getToolsByPrompt s)
    as [[[]|e|] s0]; [|discriminate|contradiction].
  destruct Hi as (Hne & Hm & Hsteps & _ & _ & Hq & _ & Hw & _).
  destruct (last_element_nonempty (currentMessages s) Hne) as [last Hlast].
  rewrite start_eq, processSteps_eq, Hm, Hlast.
  match goal with
  | |- context [while_steps_ ?f ?t ?l ?x] =>
      pose proof (while_steps_rounds f t l x) as Hr;
      destruct (while_steps_ f t l x) as [[l'|e|] s1]
  end; cbn [fst]; try discriminate.
  intros _. cbn [fst snd] in Hr.
  destruct Hr as (rounds & -> & Hm1 & Hfw1 & Hw1 & _ & Ht).
  exists last, rounds.
  cbn [closed enqueued waiting currentMessages snd close modify set_waiting].
  rewrite Hm1, Hfw1, Hw1, Hm, Hq, Hw. repeat split; auto.
Qed.

(** C9.  With [save = false] a completed run still hands one relay to
    [waitUntil], and its messages are the last message of the history
    followed by the finalized message of every round.  The run itself is
    the run with [save = true]: same outcome, same state but for the relay,
    whose messages then also hold, after each finalized message, the tool
    messages dispatched for it. *)
Theorem save_false_only_leaves_tool_messages_out (this : ResponderAgent) (s : State) :
  fst (run_ (set_save false this) s) = Return StreamClosed ->
  fst (run_ (set_save true this) s) = Return StreamClosed
  /\ snd (run_ (set_save true this) s) =
     set_waiting (waiting (snd (run_ (set_save true this) s)))
                 (snd (run_ (set_save false this) s))
  /\ exists (last : Message) (rounds : list Round),
       last_element (currentMessages s) = Some last
       /\ waiting (snd (run_ (set_save false this) s)) =
          waiting s ++ [last :: map fst rounds]
       /\ waiting (snd (run_ (set_save true this) s)) =
          waiting s ++ [last :: produced rounds]
       /\ currentMessages (snd (run_ (set_save false this) s)) =
          currentMessages s ++ produced rounds
       /\ forwarded_results (enqueued (snd (run_ (set_save false this) s))) =
          forwarded_results (enqueued s) ++ flat_map snd rounds
       /\ dispatched_are_tool_messages rounds.
Proof.
  rewrite !run_eq. pose proof (initialize_effects s) as Hi.
  destruct (initialize processMessagesForLM getToolsByPrompt s)
    as [[[]|e|] s0]; [|discriminate|contradiction].
  destruct Hi as (Hne & Hm & Hsteps & _ & _ & Hq & _ & Hw & _).
  destruct (last_element_nonempty (currentMessages s) Hne) as [last Hlast].
  rewrite !start_eq, !processSteps_eq, Hm, Hlast.
  cbn [set_save maxToolCallSteps].
  match goal with
  | |- context [while_steps_ ?f (set_save false this) ?l ?x] =>
      destruct (while_steps_save_flag f this l l x) as [Hs Hr];
      destruct (while_steps_ f (set_save false this) l x) as [[lf|e|] sf];
      destruct (while_steps_ f (set_save true this) l x) as [[lt|e'|] st]
  end; cbn [fst snd] in Hs, Hr |- *; try discriminate; try contradiction.
  intros _. subst st.
  destruct Hr as (rounds & -> & -> & Hm1 & Hfw1 & Hw1 & _ & Ht).
  split; [reflexivity|]. split; [reflexivity|].
  exists last, rounds.
  cbn [closed enqueued waiting currentMessages snd close modify set_waiting].
  rewrite Hm1, Hfw1, Hw1, Hm, Hq, Hw. repeat split; auto.
Qed.

Lemma initialize_catalog_up (s : State) (m : Message) (ms : list Message)
    (suggested : list SuggestedTool) :
  currentMessages s = m :: ms ->
  getToolsByPrompt
    (js_or (processMessagesForLM (slice_last 5 (m :: ms))) EmptyString)
  = inr suggested ->
  exists s0,
    initialize processMessagesForLM getToolsByPrompt s = (Return tt, s0)
    /\ currentMessages s0 = currentMessages s
    /\ steps s0 = steps s
    /\ requests s0 = requests s
    /\ enqueued s0 = enqueued s
    /\ dispatches (console s0) = dispatches (console s).
Proof.
  intros Hm Hq. unfold initialize, bind, call_getToolsByPrompt.
  cbn [log modify get]. cbn [currentMessages]. rewrite Hm, Hq.
  eexists. split; [reflexivity|]. cbn. rewrite !dispatches_app. cbn.
  rewrite !app_nil_r. auto.
Qed.

(** An iteration over a stream the loop can read goes through the
    dispatcher exactly when the merged response signals tool calls. *)
Lemma iteration_readable (this : ResponderAgent) (s : State)
    (stream : list ChatCompletionChunk) :
  create (length (requests s)) (request_of CHATGPT_DEFAULT_MODEL this s)
  = inr stream ->
  readable mergeResponseObjects stream = true ->
  exists m o,
    fst (iteration_ this s) = Return (m, o)
    /\ match o with Some _ => true | None => false end
       = match finish_of (merged mergeResponseObjects stream) with
         | Some r => String.eqb r "tool_calls"
         | None => false
         end.
Proof.
  intros Hc Hr. unfold iteration_, iteration, bind, handleToolCalls.
  cbn [get log modify]. rewrite fetch_eq.
  unfold request_of in Hc |- *. cbn [requests currentMessages steps].
  rewrite Hc.
  match goal with
  | |- context [processResponse ?u ?m ?t ?st ?x] =>
      destruct (processResponse_readable u m t st x Hr)
        as (c & l & events & Hch & Hp & _);
      rewrite Hp; clear Hp
  end.
  rewrite hasToolCall_eq by (unfold has_choice; rewrite Hch; reflexivity).
  destruct (match finish_of (merged mergeResponseObjects stream) with
            | Some r => String.eqb r "tool_calls"
            | None => false
            end); cbn [negb].
  - unfold bind. rewrite executeTools_spec, for_each_enqueue. cbn. eauto.
  - cbn. eauto.
Qed.

(** Against a provider that always signals tool calls the loop runs as
    many iterations as [steps] is short of [maxToolCallSteps]; every one of
    them sends the tool list and goes through the dispatcher, and then the
    guard ends the loop. *)
Lemma while_steps_always_tool_calls :
  (forall n req, exists stream,
      create n req = inr stream
      /\ signals_tool_calls mergeResponseObjects stream = true) ->
  forall (n fuel : nat) (this : ResponderAgent) (l : list Message) (s : State),
    n < fuel ->
    (maxToolCallSteps this - steps s = Z.of_nat n)%Z ->
    exists l' s' reqs,
      while_steps_ fuel this l s = (Return l', s')
      /\ requests s' = requests s ++ reqs
      /\ length reqs = n
      /\ Forall (fun r => req_tools r = Some (tools this)) reqs
      /\ steps s' = maxToolCallSteps this
      /\ length (dispatches (console s')) = length (dispatches (console s)) + n.
Proof.
  intros Hprov. induction n as [|n IH]; intros fuel this l s Hfuel Hsteps;
    (destruct fuel as [|fuel]; [lia|]); rewrite while_steps_eq.
  - assert (Hg : (steps s <? maxToolCallSteps this)%Z = false)
      by (apply Z.ltb_ge; lia).
    rewrite Hg. exists l, s, []. rewrite app_nil_r.
    repeat split; auto; lia.
  - assert (Hg : (steps s <? maxToolCallSteps this)%Z = true)
      by (apply Z.ltb_lt; lia).
    rewrite Hg.
    destruct (Hprov (length (requests s))
                    (request_of CHATGPT_DEFAULT_MODEL this s))
      as (stream & Hc & Hsig).
    unfold signals_tool_calls in Hsig. apply andb_true_iff in Hsig as [Hr Hf].
    destruct (iteration_readable this s stream Hc Hr) as (m & o & Hit & Ho).
    rewrite Hf in Ho. destruct o as [r|]; [|discriminate].
    pose proof (iteration_effects this s) as He.
    destruct (iteration_ this s) as [c s1]. cbn in Hit. subst c.
    destruct He as (_ & Hst & Hreq & _ & Hd & _).
    destruct (IH fuel this (if save this then (l ++ [m]) ++ r else l ++ [m]) s1)
      as (l' & s' & reqs & Hrun & Hreq' & Hlen & Hall & Hst' & Hd');
      [lia|lia|].
    exists l', s', (request_of CHATGPT_DEFAULT_MODEL this s :: reqs).
    rewrite Hrun, Hreq', Hreq, Hd', Hd, length_app, <- app_assoc.
    cbn [length app].
    repeat split; auto; try lia.
    constructor; [|exact Hall]. unfold request_of. cbn. rewrite Hg. reflexivity.
Qed.

(** When the guard is false on entry, [processSteps] does no round: it
    starts the relay over the last message and returns. *)
Lemma processSteps_no_round (this : ResponderAgent) (s : State) :
  (maxToolCallSteps this <= steps s)%Z ->
  processSteps_ this s =
  (Return tt,
   set_waiting (waiting s ++ [match last_element (currentMessages s) with
                              | Some m => [m]
                              | None => []
                              end]) s).
Proof.
  intros H. rewrite processSteps_eq, while_steps_eq.
  assert (Hg : (steps s <? maxToolCallSteps this)%Z = false)
    by (apply Z.ltb_ge; lia).
  rewrite Hg. reflexivity.
Qed.

(** When the guard lets a first round in and the merged response does not
    signal tool calls, that round is the only one: one request, one message
    appended, nothing dispatched, nothing forwarded but fragments, and the
    step counter stays where it was. *)
Lemma processSteps_single_round (this : ResponderAgent) (s : State)
    (stream : list ChatCompletionChunk) :
  (steps s < maxToolCallSteps this)%Z ->
  create (length (requests s)) (request_of CHATGPT_DEFAULT_MODEL this s)
  = inr stream ->
  readable mergeResponseObjects stream = true ->
  signals_tool_calls mergeResponseObjects stream = false ->
  exists m s',
    processSteps_ this s = (Return tt, s')
    /\ requests s' = requests s ++ [request_of CHATGPT_DEFAULT_MODEL this s]
    /\ currentMessages s' = currentMessages s ++ [m]
    /\ dispatches (console s') = dispatches (console s)
    /\ forwarded_results (enqueued s') = forwarded_results (enqueued s)
    /\ steps s' = steps s.
Proof.
  intros Hlt Hc Hr Hsig. rewrite processSteps_eq, while_steps_eq.
  apply Z.ltb_lt in Hlt. rewrite Hlt.
  unfold signals_tool_calls in Hsig. rewrite Hr in Hsig. cbn in Hsig.
  destruct (iteration_readable this s stream Hc Hr) as (m & o & Hit & Ho).
  rewrite Hsig in Ho. destruct o as [r|]; [discriminate|].
  pose proof (iteration_effects this s) as He.
  destruct (iteration_ this s) as [c s1]. cbn in Hit. subst c.
  destruct He as (Hm & Hst & Hreq & Hfw & Hd & _).
  exists m, (set_waiting
               (waiting s1 ++
                [match last_element (currentMessages s) with
                 | Some m0 => [m0]
                 | None => []
                 end ++ [m]]) s1).
  split; [reflexivity|]. cbn [set_waiting requests currentMessages console enqueued steps].
  cbn [results_of] in Hm, Hfw. rewrite app_nil_r in Hfw.
  rewrite app_nil_r in Hd.
  repeat split; auto; try lia.
Qed.

(** C1, on the code.  With [maxToolCallSteps = N], a fresh step counter
    and a provider whose every merged response signals tool calls, [run]
    performs exactly [N] rounds: each of the [N] requests carries the tool
    list and each round goes through the dispatcher.  Then the guard of the
    [while] is false and the stream is closed.  No further request is made,
    so none omits the tool list: the final round of the spec does not take
    place. *)
Theorem run_always_tool_calls_stops_after_N_rounds (N : nat)
    (this : ResponderAgent) (s : State) (m : Message) (ms : list Message)
    (suggested : list SuggestedTool) :
  maxToolCallSteps this = Z.of_nat N ->
  steps s = 0%Z ->
  currentMessages s = m :: ms ->
  getToolsByPrompt
    (js_or (processMessagesForLM (slice_last 5 (m :: ms))) EmptyString)
  = inr suggested ->
  (forall n req, exists stream,
      create n req = inr stream
      /\ signals_tool_calls mergeResponseObjects stream = true) ->
  exists reqs,
    fst (run_ this s) = Return StreamClosed
    /\ requests (snd (run_ this s)) = requests s ++ reqs
    /\ length reqs = N
    /\ Forall (fun r => req_tools r = Some (tools this)) reqs
    /\ length (dispatches (console (snd (run_ this s)))) =
       length (dispatches (console s)) + N
    /\ steps (snd (run_ this s)) = Z.of_nat N.
Proof.
  intros Hmax Hsteps Hm Hq Hprov. rewrite run_eq.
  destruct (initialize_catalog_up s m ms suggested Hm Hq)
    as (s0 & Hi & _ & Hst0 & Hreq0 & _ & Hd0).
  rewrite Hi, start_eq, processSteps_eq.
  match goal with
  | |- context [while_steps_ ?f ?t ?l ?x] =>
      destruct (while_steps_always_tool_calls Hprov N f t l x)
        as (l' & s' & reqs & Hrun & Hreq & Hlen & Hall & Hst & Hd);
        [lia|lia|rewrite Hrun]
  end.
  exists reqs.
  cbn [fst snd close modify set_waiting requests console steps].
  rewrite Hreq, Hreq0, Hd, Hd0, Hst, Hmax. repeat split; auto.
Qed.

(** C3, on the code.  When [maxToolCallSteps] is not above [steps] (so for
    [maxToolCallSteps = 0] on a fresh agent) the guard of the [while] is
    false at once: [run] makes no completion request, with or without the
    tool list, appends nothing to the history and forwards nothing.  The
    first round of the spec does not take place. *)
Theorem run_without_steps_makes_no_request (this : ResponderAgent) (s : State) :
  (maxToolCallSteps this <= steps s)%Z ->
  requests (snd (run_ this s)) = requests s
  /\ currentMessages (snd (run_ this s)) = currentMessages s
  /\ enqueued (snd (run_ this s)) = enqueued s.
Proof.
  intros Hmax. rewrite run_eq. pose proof (initialize_effects s) as Hi.
  destruct (initialize processMessagesForLM getToolsByPrompt s)
    as [[[]|e|] s0]; [| |contradiction].
  - destruct Hi as (_ & Hm & Hst & _ & Hreq & Hq & _).
    rewrite start_eq, processSteps_no_round by lia. cbn.
    repeat split; auto.
  - destruct Hi as (Hreq & Hq & _ & Hm). cbn.
    repeat split; auto.
Qed.

(** [run] always comes back: with a stream, or with the exception of
    [initialize]. *)
Lemma run_total (this : ResponderAgent) (s : State) :
  fst (run_ this s) <> OutOfFuel.
Proof.
  rewrite run_eq. pose proof (initialize_effects s) as Hi.
  destruct (initialize processMessagesForLM getToolsByPrompt s)
    as [[[]|e|] s0]; [|cbn; discriminate|contradiction].
  rewrite start_eq. pose proof (processSteps_total this s0) as Hp.
  destruct (processSteps_ this s0) as [[[]|e|] s1]; cbn in *;
    try discriminate. congruence.
Qed.

End Loop.

(** ** The scenarios, run *)

Lemma always_tool_calls_signals (n : nat) (req : CompletionRequest) :
  exists stream,
    Scenario.always_tool_calls n req = inr stream
    /\ signals_tool_calls DeltaMerger.mergeResponseObjects stream = true.
Proof. exists Scenario.tool_calls_stream. split; reflexivity. Defined.

Lemma run_always_tool_calls_stops_after_N_rounds_witness :
  exists reqs,
    fst Scenario.tool_loop_run = Return StreamClosed
    /\ requests (snd Scenario.tool_loop_run) = [] ++ reqs
    /\ length reqs = 2
    /\ Forall (fun r => req_tools r = Some mockTools) reqs
    /\ length (dispatches (console (snd Scenario.tool_loop_run))) = 0 + 2
    /\ steps (snd Scenario.tool_loop_run) = 2%Z.
Proof.
  exact (run_always_tool_calls_stops_after_N_rounds
           Scenario.uuid DeltaMerger.mergeResponseObjects
           Scenario.processMessagesForLM Scenario.catalog_up
           Scenario.always_tool_calls None 2
           (new_ResponderAgent (Scenario.param [Scenario.question] (Some 2%Z) None))
           (new_State (Scenario.param [Scenario.question] (Some 2%Z) None))
           Scenario.question [] [mkSuggested "get_current_weather" "0.83"]
           eq_refl eq_refl eq_refl eq_refl always_tool_calls_signals).
Defined.

Lemma run_without_steps_makes_no_request_witness :
  requests (snd Scenario.zero_steps_run) = []
  /\ currentMessages (snd Scenario.zero_steps_run) = [Scenario.question]
  /\ enqueued (snd Scenario.zero_steps_run) = [].
Proof.
  exact (run_without_steps_makes_no_request
           Scenario.uuid DeltaMerger.mergeResponseObjects
           Scenario.processMessagesForLM Scenario.catalog_up
           Scenario.always_stop None
           (new_ResponderAgent (Scenario.param [Scenario.question] (Some 0%Z) None))
           (new_State (Scenario.param [Scenario.question] (Some 0%Z) None))
           (Z.le_refl 0)).
Defined.

(** At [maxToolCallSteps = 0] there is no first response to speak of: the
    provider would answer with the finish indicator [stop], but the guard of
    the [while] is false before the first round, and the run closes the
    stream having made no request and appended no message. *)
Theorem stop_response_with_zero_steps_is_never_asked_for :
  Scenario.always_stop 0
    (request_of None
       (new_ResponderAgent (Scenario.param [Scenario.question] (Some 0%Z) None))
       (new_State (Scenario.param [Scenario.question] (Some 0%Z) None)))
  = inr Scenario.stop_stream
  /\ finish_of (merged DeltaMerger.mergeResponseObjects Scenario.stop_stream)
     = Some "stop"
  /\ fst Scenario.zero_steps_run = Return StreamClosed
  /\ length (requests (snd Scenario.zero_steps_run)) = 0
  /\ currentMessages (snd Scenario.zero_steps_run) = [Scenario.question]
  /\ dispatches (console (snd Scenario.zero_steps_run)) = [].
Proof.
  vm_compute. repeat split; reflexivity.
Qed.

(** The same provider under the default bound: one round, one message. *)
Example answered_run_one_round :
  fst Scenario.answered_run = Return StreamClosed
  /\ length (requests (snd Scenario.answered_run)) = 1
  /\ map id (currentMessages (snd Scenario.answered_run)) = ["m1"; "m2"; "a-uuid"]
  /\ dispatches (console (snd Scenario.answered_run)) = []
  /\ steps (snd Scenario.answered_run) = 0%Z.
Proof.
  vm_compute. repeat split; reflexivity.
Qed.

(** C5, as the spec has it, fails: on a history of two messages the relay
    gets the second, the last one, and the finalized answer; the very first
    message of the history is not among the messages to persist. *)
Lemma relay_gets_last_message_counterexample :
  fst Scenario.answered_run = Return StreamClosed
  /\ map (map id) (waiting (snd Scenario.answered_run)) = [["m2"; "a-uuid"]]
  /\ ~ In Scenario.earlier (concat (waiting (snd Scenario.answered_run))).
Proof.
  split; [reflexivity|]. split; [reflexivity|].
  vm_compute. intros [H|[H|[]]]; discriminate H.
Qed.

Lemma run_relays_last_message_and_rounds_witness :
  exists (last : Message) (rounds : list Round),
    last_element [Scenario.earlier; Scenario.question] = Some last
    /\ waiting (snd Scenario.answered_run) =
       [] ++ [last :: to_save true rounds]
    /\ currentMessages (snd Scenario.answered_run) =
       [Scenario.earlier; Scenario.question] ++ produced rounds
    /\ forwarded_results (enqueued (snd Scenario.answered_run)) =
       forwarded_results [] ++ flat_map snd rounds
    /\ dispatched_are_tool_messages rounds
    /\ closed (snd Scenario.answered_run) = true.
Proof.
  exact (run_relays_last_message_and_rounds
           Scenario.uuid DeltaMerger.mergeResponseObjects
           Scenario.processMessagesForLM Scenario.catalog_up
           Scenario.always_stop None
           (new_ResponderAgent
              (Scenario.param [Scenario.earlier; Scenario.question] None None))
           (new_State
              (Scenario.param [Scenario.earlier; Scenario.question] None None))
           eq_refl).
Defined.

Lemma save_false_only_leaves_tool_messages_out_witness :
  fst Scenario.tool_loop_run = Return StreamClosed
  /\ snd Scenario.tool_loop_run =
     set_waiting (waiting (snd Scenario.tool_loop_run))
                 (snd Scenario.unsaved_tool_loop_run)
  /\ exists (last : Message) (rounds : list Round),
       last_element [Scenario.question] = Some last
       /\ waiting (snd Scenario.unsaved_tool_loop_run) =
          [] ++ [last :: map fst rounds]
       /\ waiting (snd Scenario.tool_loop_run) =
          [] ++ [last :: produced rounds]
       /\ currentMessages (snd Scenario.unsaved_tool_loop_run) =
          [Scenario.question] ++ produced rounds
       /\ forwarded_results (enqueued (snd Scenario.unsaved_tool_loop_run)) =
          forwarded_results [] ++ flat_map snd rounds
       /\ dispatched_are_tool_messages rounds.
Proof.
  exact (save_false_only_leaves_tool_messages_out
           Scenario.uuid DeltaMerger.mergeResponseObjects
           Scenario.processMessagesForLM Scenario.catalog_up
           Scenario.always_tool_calls None
           (new_ResponderAgent (Scenario.param [Scenario.question] (Some 2%Z) None))
           (new_State (Scenario.param [Scenario.question] (Some 2%Z) None))
           eq_refl).
Defined.

(** The relay of the two runs, side by side. *)
Example save_flag_relays :
  map (map role) (waiting (snd Scenario.tool_loop_run)) =
    [[Some user; Some assistant; Some tool; Some assistant; Some tool]]
  /\ map (map role) (waiting (snd Scenario.unsaved_tool_loop_run)) =
    [[Some user; Some assistant; Some assistant]].
Proof.
  vm_compute. split; reflexivity.
Qed.

(** * Further properties of the agent *)

(** ** What [processResponse] forwards and returns *)

Section Fragments.

Variable uuid : nat -> string.
Variable mergeResponseObjects :
  ChatCompletionChunk -> ChatCompletionChunk -> ChatCompletionChunk.
Variable this : ResponderAgent.

Lemma read_chunks_Return (u : string) (stream : list ChatCompletionChunk) :
  forall acc s o s',
    read_chunks mergeResponseObjects u stream acc s = (Return o, s') ->
    forallb has_choice stream = true
    /\ o = fold_left mergeResponseObjects stream acc
    /\ s' = add_events (fragments u stream) s.
Proof.
  induction stream as [|chunk rest IH]; intros acc s o s' H.
  - cbn in H. unfold ret in H. inversion H; subst.
    cbn. unfold add_events. rewrite app_nil_r, State_eta. auto.
  - cbn [read_chunks] in H. unfold bind at 1 in H. unfold first_choice in H.
    cbn [forallb fragments flat_map]. unfold has_choice at 1, fragment_of at 1.
    destruct (choices chunk) as [[|c l]|]; try discriminate H.
    unfold ret at 1 in H. unfold bind at 1 in H. cbn [enqueue modify] in H.
    apply IH in H as (Hall & -> & ->).
    repeat split; auto. unfold add_events. cbn. rewrite <- app_assoc.
    reflexivity.
Qed.

Lemma read_chunks_bad_chunk (u : string) (pre : list ChatCompletionChunk) :
  forall bad post acc s,
    forallb has_choice pre = true ->
    has_choice bad = false ->
    exists message,
      read_chunks mergeResponseObjects u (pre ++ bad :: post) acc s =
      (Throw (TypeError message), add_events (fragments u pre) s).
Proof.
  induction pre as [|chunk pre IH]; intros bad post acc s Hpre Hbad.
  - cbn [app read_chunks]. unfold bind, first_choice.
    unfold has_choice in Hbad.
    destruct (choices bad) as [[|c l]|]; try discriminate Hbad;
      eexists; cbn; unfold add_events; rewrite app_nil_r, State_eta;
      reflexivity.
  - cbn in Hpre. apply andb_true_iff in Hpre as [Hc Hpre].
    cbn [app read_chunks fragments flat_map].
    unfold bind at 1. unfold first_choice. unfold fragment_of at 1.
    unfold has_choice in Hc.
    destruct (choices chunk) as [[|c l]|]; try discriminate Hc.
    unfold ret at 1. unfold bind at 1. cbn [enqueue modify].
    destruct (IH bad post (mergeResponseObjects acc chunk)
                 (add_events [Fragment (delta c) u] s) Hpre Hbad)
      as [message Hm].
    exists message. fold (add_events [Fragment (delta c) u] s). rewrite Hm.
    unfold add_events. cbn. rewrite <- app_assoc. reflexivity.
Qed.

Lemma processResponse_inv (stream : list ChatCompletionChunk) (s s' : State)
    (m : Message) (o : ChatCompletionChunk) :
  processResponse uuid mergeResponseObjects this stream s = (Return (m, o), s') ->
  forallb has_choice stream = true
  /\ o = merged mergeResponseObjects stream
  /\ s' = add_events (fragments (uuid (uuid_count s)) stream)
                     (set_uuid_count (S (uuid_count s)) s)
  /\ exists c l,
       choices o = Some (c :: l)
       /\ m = message_of_delta (delta c) (uuid (uuid_count s)) (threadID this).
Proof.
  unfold processResponse. unfold bind at 1. cbn [uuidv4].
  fold (set_uuid_count (S (uuid_count s)) s). unfold bind at 1.
  destruct (read_chunks mergeResponseObjects (uuid (uuid_count s)) stream
              empty_object (set_uuid_count (S (uuid_count s)) s))
    as [[o'| |] s1] eqn:Hread; try discriminate.
  apply read_chunks_Return in Hread as (Hall & -> & ->).
  unfold bind, first_choice. fold (merged mergeResponseObjects stream).
  destruct (choices (merged mergeResponseObjects stream)) as [[|c l]|] eqn:Hc;
    try discriminate.
  unfold ret. intros H. inversion H; subst. rewrite Hc. eauto 10.
Qed.

(** X5.  When [processResponse] returns a message, every chunk of the
    stream had a first choice and was forwarded as one fragment, in the
    order of arrival, all under one id; that id is the id of the returned
    message, drawn from the uuid supply at the start of the call.  The
    message carries the thread of the agent and the role, content and tool
    calls of the first choice of the merged object, which is the merge of
    all chunks from the empty object on. *)
Theorem processResponse_forwards_every_chunk
    (stream : list ChatCompletionChunk) (s s' : State)
    (m : Message) (o : ChatCompletionChunk) :
  processResponse uuid mergeResponseObjects this stream s = (Return (m, o), s') ->
  enqueued s' = enqueued s ++ fragments (id m) stream
  /\ length (fragments (id m) stream) = length stream
  /\ id m = uuid (uuid_count s)
  /\ uuid_count s' = S (uuid_count s)
  /\ thread_id m = threadID this
  /\ o = fold_left mergeResponseObjects stream empty_object
  /\ exists c l,
       choices o = Some (c :: l)
       /\ role m = delta_role (delta c)
       /\ content m = delta_content (delta c)
       /\ tool_calls m = delta_tool_calls (delta c).
Proof.
  intros H. apply processResponse_inv in H as (Hall & -> & -> & c & l & Hc & ->).
  cbn. repeat split; auto.
  - clear Hc. induction stream as [|chunk rest IH]; [reflexivity|].
    cbn in Hall. apply andb_true_iff in Hall as [Hh Hall].
    cbn [fragments flat_map]. rewrite length_app. fold (fragments (uuid (uuid_count s)) rest).
    rewrite (IH Hall). unfold fragment_of, has_choice in *.
    destruct (choices chunk) as [[|c' l']|]; try discriminate. reflexivity.
  - exists c, l. auto.
Qed.

(** X6.  A chunk without a first choice stops the read: [processResponse]
    throws a [TypeError] there, no message is built, and the fragments of
    the chunks before it have already gone to the output. *)
Theorem processResponse_chunk_without_choice
    (pre post : list ChatCompletionChunk) (bad : ChatCompletionChunk) (s : State) :
  forallb has_choice pre = true ->
  has_choice bad = false ->
  exists message,
    processResponse uuid mergeResponseObjects this (pre ++ bad :: post) s =
    (Throw (TypeError message),
     add_events (fragments (uuid (uuid_count s)) pre)
                (set_uuid_count (S (uuid_count s)) s)).
Proof.
  intros Hpre Hbad. unfold processResponse. unfold bind at 1. cbn [uuidv4].
  fold (set_uuid_count (S (uuid_count s)) s).
  destruct (read_chunks_bad_chunk (uuid (uuid_count s)) pre bad post
              empty_object (set_uuid_count (S (uuid_count s)) s) Hpre Hbad)
    as [message Hm].
  exists message. unfold bind. rewrite Hm. reflexivity.
Qed.

End Fragments.

(** ** What a run asks, appends and draws *)

Section Trace.

Variable uuid : nat -> string.
Variable mergeResponseObjects :
  ChatCompletionChunk -> ChatCompletionChunk -> ChatCompletionChunk.
Variable processMessagesForLM : list Message -> option string.
Variable getToolsByPrompt : string -> Exception + list SuggestedTool.
Variable create : nat -> CompletionRequest -> Exception + list ChatCompletionChunk.
Variable CHATGPT_DEFAULT_MODEL : option string.

Local Abbreviation iteration_ :=
  (iteration uuid mergeResponseObjects create CHATGPT_DEFAULT_MODEL).
Local Abbreviation while_steps_ :=
  (while_steps uuid mergeResponseObjects create CHATGPT_DEFAULT_MODEL).
Local Abbreviation processSteps_ :=
  (processSteps uuid mergeResponseObjects create CHATGPT_DEFAULT_MODEL).
Local Abbreviation run_ :=
  (run uuid mergeResponseObjects processMessagesForLM getToolsByPrompt create
       CHATGPT_DEFAULT_MODEL).
Local Abbreviation iteration_effects_ :=
  (iteration_effects uuid mergeResponseObjects processMessagesForLM
                     getToolsByPrompt create CHATGPT_DEFAULT_MODEL).
Local Abbreviation while_steps_total_ :=
  (while_steps_total uuid mergeResponseObjects processMessagesForLM
                     getToolsByPrompt create CHATGPT_DEFAULT_MODEL).

(** An iteration that comes back: the id and the thread of its message,
    the uuids it has drawn and the tool messages it has built. *)
Lemma iteration_inv (this : ResponderAgent) (s s' : State) (m : Message)
    (o : option (list Message)) :
  iteration_ this s = (Return (m, o), s') ->
  id m = uuid (uuid_count s)
  /\ thread_id m = threadID this
  /\ uuid_count s' = S (uuid_count s) + length (results_of o)
  /\ (o = None
      \/ o = Some (tool_messages uuid this (S (uuid_count s)) (calls_of m))).
Proof.
  unfold iteration, bind, handleToolCalls. cbn [get log modify].
  rewrite fetch_eq.
  destruct (create _ _) as [e|stream]; [discriminate|].
  match goal with
  | |- context [processResponse ?u ?mg ?t ?st ?x] =>
      destruct (processResponse u mg t st x) as [[[m' o']| |] s1] eqn:Hp
  end; try discriminate.
  apply processResponse_inv in Hp as (_ & _ & -> & c & l & _ & ->).
  match goal with
  | |- context [hasToolCall ?o ?x] =>
      destruct (hasToolCall_effects o x) as (b & Hb & _); rewrite Hb; clear Hb
  end.
  destruct b as [[|]| |]; try discriminate; cbn [negb].
  - unfold bind. rewrite executeTools_spec, for_each_enqueue.
    cbn. intros H. inversion H; subst. cbn.
    rewrite tool_messages_length. repeat split; auto.
  - cbn. intros H. inversion H; subst. cbn. repeat split; auto; lia.
Qed.

(** An iteration that throws has made its request, and has not been
    through the dispatcher. *)
Lemma iteration_Throw (this : ResponderAgent) (s s' : State) (e : Exception) :
  iteration_ this s = (Throw e, s') ->
  requests s' = requests s ++ [request_of CHATGPT_DEFAULT_MODEL this s]
  /\ dispatches (console s') = dispatches (console s)
  /\ catalog_queries s' = catalog_queries s
  /\ forwarded_results (enqueued s') = forwarded_results (enqueued s).
Proof.
  unfold iteration, bind, handleToolCalls. cbn [get log modify].
  rewrite fetch_eq.
  destruct (create _ _) as [e'|stream].
  - intros H. inversion H; subst. cbn. rewrite dispatches_app. cbn.
    rewrite app_nil_r. auto.
  - match goal with
    | |- context [processResponse ?u ?mg ?t ?st ?x] =>
        destruct (processResponse_effects u mg t st x)
          as (c & events & Hp & Hfw & _); rewrite Hp; clear Hp
    end.
    destruct c as [[m o]|e'|].
    + match goal with
      | |- context [hasToolCall ?o ?x] =>
          destruct (hasToolCall_effects o x) as (b & Hb & _); rewrite Hb; clear Hb
      end.
      destruct b as [[|]|e'|]; cbn [negb].
      * unfold bind. rewrite executeTools_spec, for_each_enqueue. discriminate.
      * discriminate.
      * intros H. inversion H; subst. cbn. rewrite dispatches_app. cbn.
        rewrite forwarded_results_app, Hfw, !app_nil_r. auto.
      * discriminate.
    + intros H. inversion H; subst. cbn. rewrite dispatches_app. cbn.
      rewrite forwarded_results_app, Hfw, !app_nil_r. auto.
    + discriminate.
Qed.

Lemma request_of_shape (this : ResponderAgent) (s : State) :
  (steps s <? maxToolCallSteps this)%Z = true ->
  request_of CHATGPT_DEFAULT_MODEL this s =
  round_request CHATGPT_DEFAULT_MODEL this (currentMessages s) [] 0.
Proof.
  intros Hg. unfold request_of, round_request. rewrite Hg. cbn.
  rewrite app_nil_r. reflexivity.
Qed.

Lemma round_request_shift (this : ResponderAgent) (history : list Message)
    (r : Round) (rounds : list Round) (k : nat) :
  round_request CHATGPT_DEFAULT_MODEL this (history ++ fst r :: snd r) rounds k =
  round_request CHATGPT_DEFAULT_MODEL this history (r :: rounds) (S k).
Proof.
  unfold round_request. cbn [firstn produced flat_map].
  fold (produced (firstn k rounds)). rewrite <- app_assoc. reflexivity.
Qed.

(** The whole of a loop that comes back, round by round. *)
Lemma while_steps_trace (fuel : nat) :
  forall this l s l' s',
    while_steps_ fuel this l s = (Return l', s') ->
    exists rounds : list Round,
      currentMessages s' = currentMessages s ++ produced rounds
      /\ requests s' =
         requests s ++
         map (round_request CHATGPT_DEFAULT_MODEL this (currentMessages s) rounds)
             (seq 0 (length rounds))
      /\ map id (produced rounds) =
         map uuid (seq (uuid_count s) (length (produced rounds)))
      /\ uuid_count s' = uuid_count s + length (produced rounds)
      /\ Forall (fun m => thread_id m = threadID this) (produced rounds)
      /\ Forall answers_calls rounds.
Proof.
  induction fuel as [|fuel IH]; intros this l s l' s' H; [discriminate H|].
  rewrite while_steps_eq in H.
  destruct (steps s <? maxToolCallSteps this)%Z eqn:Hg.
  - pose proof (iteration_effects_ this s) as He.
    pose proof (iteration_inv this s) as Hi.
    destruct (iteration_ this s) as [[[m [r|]]|e|] s1] eqn:Hit;
      try discriminate H.
    + destruct He as (Hm & _ & Hreq & _).
      destruct (Hi s1 m (Some r) eq_refl) as (Hid & Hth & Huc & [Ho|Ho]);
        [discriminate Ho|]. inversion Ho as [Hr]. clear Ho.
      apply IH in H as (rounds & Hm' & Hreq' & Hids & Huc' & Hths & Hans).
      exists ((m, r) :: rounds).
      cbn [results_of] in Hm, Huc.
      cbn [produced flat_map fst snd length]. fold (produced rounds).
      rewrite Hm', Hm, Hreq', Hreq, Huc', Huc, <- !app_assoc. cbn [app].
      split; [reflexivity|]. split.
      { f_equal. cbn [seq map]. f_equal.
        - rewrite (request_of_shape this s Hg). reflexivity.
        - rewrite <- seq_shift, map_map. apply map_ext. intros k.
          rewrite Hm.
          apply (round_request_shift this (currentMessages s) (m, r)). }
      split.
      { cbn [length map seq]. rewrite Hid. f_equal.
        rewrite length_app, map_app, seq_app, map_app. f_equal.
        - rewrite Hr at 1. rewrite tool_messages_ids.
          rewrite <- (tool_messages_length uuid this (calls_of m) (S (uuid_count s))).
          rewrite <- Hr. reflexivity.
        - rewrite Hids, Huc. reflexivity. }
      split; [cbn [length]; rewrite length_app; lia|]. split.
      { constructor; [exact Hth|]. apply Forall_app. split; [|exact Hths].
        rewrite Hr. eapply Forall_impl; [|apply tool_messages_shape].
        cbn. tauto. }
      constructor; [|exact Hans]. right. cbn [fst snd]. rewrite Hr at 1.
      apply tool_messages_tool_call_ids.
    + destruct He as (Hm & _ & Hreq & _).
      destruct (Hi s1 m None eq_refl) as (Hid & Hth & Huc & _).
      inversion H; subst. exists [(m, [])].
      cbn [results_of] in Hm, Huc. cbn. rewrite Hm, Hreq, Huc, Hid.
      rewrite (request_of_shape this s Hg). unfold round_request. cbn.
      split; [reflexivity|]. split; [reflexivity|]. split; [reflexivity|].
      split; [lia|]. split.
      * repeat constructor. exact Hth.
      * constructor; [left; reflexivity|constructor].
  - inversion H; subst. exists []. cbn. rewrite !app_nil_r, Nat.add_0_r.
    repeat split; auto; constructor.
Qed.

(** What holds of a loop however it ends. *)
Lemma while_steps_bounds (fuel : nat) :
  forall this l s,
    exists reqs suffix,
      requests (snd (while_steps_ fuel this l s)) = requests s ++ reqs
      /\ Forall (fun q => req_tools q = Some (tools this)
                          /\ req_stream q = true
                          /\ req_model q =
                             js_or (model this)
                                   (js_or CHATGPT_DEFAULT_MODEL "gpt-4o")) reqs
      /\ (Z.of_nat (length reqs) <= Z.max 0 (maxToolCallSteps this - steps s))%Z
      /\ (steps (snd (while_steps_ fuel this l s)) =
          steps s
          + Z.of_nat (length (dispatches (console (snd (while_steps_ fuel this l s)))))
          - Z.of_nat (length (dispatches (console s))))%Z
      /\ (steps s <= steps (snd (while_steps_ fuel this l s))
          <= Z.max (steps s) (maxToolCallSteps this))%Z
      /\ currentMessages (snd (while_steps_ fuel this l s)) =
         currentMessages s ++ suffix
      /\ waiting (snd (while_steps_ fuel this l s)) = waiting s
      /\ closed (snd (while_steps_ fuel this l s)) = closed s
      /\ catalog_queries (snd (while_steps_ fuel this l s)) = catalog_queries s
      /\ (forall e, fst (while_steps_ fuel this l s) = Throw e -> reqs <> []).
Proof.
  induction fuel as [|fuel IH]; intros this l s.
  - exists [], []. cbn. rewrite !app_nil_r. repeat split; auto; try lia.
    discriminate.
  - rewrite while_steps_eq.
    destruct (steps s <? maxToolCallSteps this)%Z eqn:Hg.
    + apply Z.ltb_lt in Hg.
      pose proof (iteration_effects_ this s) as He.
      pose proof (iteration_Throw this s) as Ht.
      assert (Hq : req_tools (request_of CHATGPT_DEFAULT_MODEL this s) = Some (tools this)
                   /\ req_stream (request_of CHATGPT_DEFAULT_MODEL this s) = true
                   /\ req_model (request_of CHATGPT_DEFAULT_MODEL this s) =
                      js_or (model this) (js_or CHATGPT_DEFAULT_MODEL "gpt-4o")).
      { unfold request_of. apply Z.ltb_lt in Hg. rewrite Hg. cbn. auto. }
      destruct (iteration_ this s) as [[[m [r|]]|e|] s1]; [| | |contradiction].
      * destruct He as (Hm & Hst & Hreq & _ & Hd & Hw & Hc & Hcl & _).
        destruct (IH this (if save this then (l ++ [m]) ++ r else l ++ [m]) s1)
          as (reqs & suffix & Hreq' & Hall & Hlen & Hst' & Hle & Hm' & Hw' & Hcl' & Hc' & _).
        remember (snd (while_steps_ fuel this
                         (if save this then (l ++ [m]) ++ r else l ++ [m]) s1))
          as res.
        exists (request_of CHATGPT_DEFAULT_MODEL this s :: reqs),
               (m :: r ++ suffix).
        cbn [fst snd results_of] in *.
        rewrite Hd, length_app in Hst'. cbn [length] in Hst' |- *.
        split; [rewrite Hreq', Hreq, <- app_assoc; reflexivity|].
        split; [constructor; auto|].
        split; [lia|]. split; [lia|]. split; [lia|].
        split; [rewrite Hm', Hm, <- app_assoc; reflexivity|].
        repeat split; try congruence.
      * destruct He as (Hm & Hst & Hreq & _ & Hd & Hw & Hc & Hcl & _).
        exists [request_of CHATGPT_DEFAULT_MODEL this s], [m].
        cbn [fst snd results_of length] in *.
        rewrite Hd, app_nil_r.
        split; [exact Hreq|]. split; [constructor; auto|].
        split; [lia|]. split; [lia|]. split; [lia|].
        repeat split; auto. discriminate.
      * destruct He as (Hm & Hst & Hw & Hcl).
        destruct (Ht s1 e eq_refl) as (Hreq & Hd & Hc & _).
        exists [request_of CHATGPT_DEFAULT_MODEL this s], [].
        cbn [fst snd length]. rewrite Hd, app_nil_r.
        split; [exact Hreq|]. split; [constructor; auto|].
        split; [lia|]. split; [lia|]. split; [lia|].
        repeat split; auto. discriminate.
    + apply Z.ltb_ge in Hg. exists [], []. cbn. rewrite !app_nil_r.
      repeat split; auto; try lia. discriminate.
Qed.

(** Every tool call that reaches the dispatcher is answered on the output,
    however the loop ends. *)
Lemma while_steps_answers (fuel : nat) :
  forall this l s,
    exists calls : list (list ToolCall),
      dispatches (console (snd (while_steps_ fuel this l s))) =
      dispatches (console s) ++ calls
      /\ map tool_call_id
             (forwarded_results (enqueued (snd (while_steps_ fuel this l s)))) =
         map tool_call_id (forwarded_results (enqueued s)) ++
         map (fun toolCall => Some (js_or (call_id toolCall) EmptyString))
             (concat calls).
Proof.
  induction fuel as [|fuel IH]; intros this l s.
  - exists []. cbn. rewrite !app_nil_r. auto.
  - rewrite while_steps_eq.
    destruct (steps s <? maxToolCallSteps this)%Z.
    + pose proof (iteration_effects_ this s) as He.
      pose proof (iteration_inv this s) as Hi.
      pose proof (iteration_Throw this s) as Ht.
      destruct (iteration_ this s) as [[[m [r|]]|e|] s1]; [| | |contradiction].
      * destruct He as (_ & _ & _ & Hfw & Hd & _).
        destruct (Hi s1 m (Some r) eq_refl) as (_ & _ & _ & [Ho|Ho]);
          [discriminate Ho|]. injection Ho as Hr.
        destruct (IH this (if save this then (l ++ [m]) ++ r else l ++ [m]) s1)
          as (calls & Hd' & Hfw').
        exists (calls_of m :: calls). cbn [fst snd].
        rewrite Hd', Hfw', Hd, Hfw, <- !app_assoc. cbn [results_of app concat].
        split; [reflexivity|].
        rewrite !map_app, <- app_assoc. do 2 f_equal.
        rewrite Hr at 1. apply tool_messages_tool_call_ids.
      * destruct He as (_ & _ & _ & Hfw & Hd & _).
        exists []. cbn [fst snd results_of] in *. rewrite Hd, Hfw. cbn.
        rewrite !app_nil_r. auto.
      * destruct (Ht s1 e eq_refl) as (_ & Hd & _ & Hfw).
        exists []. cbn [fst snd]. rewrite Hd, Hfw. cbn.
        rewrite !app_nil_r. auto.
    + exists []. cbn. rewrite !app_nil_r. auto.
Qed.

(** What [initialize] touches, however it ends. *)
Lemma initialize_frame (s : State) :
  currentMessages (snd (initialize processMessagesForLM getToolsByPrompt s))
  = currentMessages s
  /\ steps (snd (initialize processMessagesForLM getToolsByPrompt s)) = steps s
  /\ uuid_count (snd (initialize processMessagesForLM getToolsByPrompt s))
     = uuid_count s
  /\ requests (snd (initialize processMessagesForLM getToolsByPrompt s))
     = requests s
  /\ enqueued (snd (initialize processMessagesForLM getToolsByPrompt s))
     = enqueued s
  /\ closed (snd (initialize processMessagesForLM getToolsByPrompt s)) = closed s
  /\ waiting (snd (initialize processMessagesForLM getToolsByPrompt s))
     = waiting s
  /\ dispatches (console (snd (initialize processMessagesForLM getToolsByPrompt s)))
     = dispatches (console s)
  /\ catalog_queries (snd (initialize processMessagesForLM getToolsByPrompt s))
     = catalog_queries s ++
       match currentMessages s with
       | [] => []
       | _ :: _ =>
           [js_or (processMessagesForLM (slice_last 5 (currentMessages s)))
                  EmptyString]
       end.
Proof.
  unfold initialize, bind, call_getToolsByPrompt. cbn [log modify get].
  cbn [currentMessages].
  destruct (currentMessages s) as [|m ms] eqn:Hm.
  - cbn. rewrite ?dispatches_app. cbn. rewrite ?app_nil_r.
    repeat split; reflexivity.
  - destruct (getToolsByPrompt _); cbn; rewrite ?dispatches_app; cbn;
      rewrite ?app_nil_r; repeat split; reflexivity.
Qed.

(** [run] is [initialize], then the loop, then the relay and the closing
    of the stream. *)
Lemma run_cases (this : ResponderAgent) (s : State) :
  (exists e,
      run_ this s =
      (Throw e, snd (initialize processMessagesForLM getToolsByPrompt s)))
  \/ (exists (l : list Message) (s0 : State),
        s0 = snd (initialize processMessagesForLM getToolsByPrompt s)
        /\ currentMessages s <> []
        /\ same_but_relay
             (snd (run_ this s))
             (snd (while_steps_ (S (Z.to_nat (maxToolCallSteps this - steps s0)))
                                this l s0))
        /\ match fst (while_steps_ (S (Z.to_nat (maxToolCallSteps this - steps s0)))
                                   this l s0) with
           | Return l' =>
               fst (run_ this s) = Return StreamClosed
               /\ waiting (snd (run_ this s)) = waiting s ++ [l']
               /\ closed (snd (run_ this s)) = true
           | Throw e =>
               fst (run_ this s) = Return (StreamErrored e)
               /\ waiting (snd (run_ this s)) = waiting s
               /\ closed (snd (run_ this s)) = closed s
           | OutOfFuel => False
           end).
Proof.
  rewrite run_eq.
  pose proof (initialize_effects processMessagesForLM getToolsByPrompt s) as Hi.
  destruct (initialize processMessagesForLM getToolsByPrompt s)
    as [[[]|e|] s0]; [|left; exists e; reflexivity|contradiction].
  destruct Hi as (Hne & _ & _ & _ & _ & _ & Hcl & Hw & _). right.
  exists (match last_element (currentMessages s0) with
          | Some m => [m]
          | None => []
          end), s0.
  cbn [snd]. split; [reflexivity|]. split; [exact Hne|].
  rewrite start_eq, processSteps_eq.
  match goal with
  | |- context [while_steps_ ?f ?t ?l ?x] =>
      pose proof (while_steps_total_ f t l x) as Htot;
      pose proof (while_steps_bounds f t l x)
        as (_ & _ & _ & _ & _ & _ & _ & _ & Hw' & Hcl' & _);
      destruct (while_steps_ f t l x) as [[l'|e|] s1]
  end; cbn [fst snd close modify set_waiting] in *.
  - unfold same_but_relay. cbn. rewrite Hw', Hw. repeat split; reflexivity.
  - unfold same_but_relay. rewrite Hw', Hw, Hcl', Hcl. repeat split; reflexivity.
  - exfalso. apply Htot; [lia|reflexivity].
Qed.

Lemma js_or_nonempty (a : option string) (b : string) :
  b <> EmptyString -> js_or a b <> EmptyString.
Proof.
  intros Hb. unfold js_or. destruct a as [x|]; [|exact Hb].
  destruct (String.eqb_spec x EmptyString); auto.
Qed.

Lemma NoDup_map_injective {A B : Type} (f : A -> B) (l : list A) :
  (forall a b, f a = f b -> a = b) -> NoDup l -> NoDup (map f l).
Proof.
  intros Hinj Hl. induction Hl as [|x l Hx Hl IH]; cbn; constructor; auto.
  intros Hin. apply in_map_iff in Hin as (y & Hy & Hin).
  apply Hinj in Hy. subst. contradiction.
Qed.

Lemma skipn_length_app {A : Type} (a b : list A) :
  skipn (length a) (a ++ b) = b.
Proof. induction a; cbn; auto. Qed.

Lemma issued_app (s s' : State) (reqs : list CompletionRequest) :
  requests s' = requests s ++ reqs -> issued s s' = reqs.
Proof. intros H. unfold issued. rewrite H. apply skipn_length_app. Qed.

Lemma appended_app (s s' : State) (ms : list Message) :
  currentMessages s' = currentMessages s ++ ms -> appended s s' = ms.
Proof. intros H. unfold appended. rewrite H. apply skipn_length_app. Qed.

(** The loop of a run, with the state [initialize] left, in the terms of
    the state the run started from. *)
Ltac through_initialize s :=
  let Hf := fresh "Hframe" in
  pose proof (initialize_frame s) as Hf;
  destruct Hf as (?Hm0 & ?Hst0 & ?Huc0 & ?Hreq0 & ?Henq0 & ?Hcl0 & ?Hw0 & ?Hd0 & ?Hcat0).

(** X1.  Every completion request a run makes asks for a stream, names a
    model that is not the empty string (the agent's, else the environment's
    default, else "gpt-4o") and carries the tool list of the agent, for any
    provider and however the run ends: [fetch] never sends a request
    without tools. *)
Theorem run_requests_always_carry_tools (this : ResponderAgent) (s : State) :
  requests (snd (run_ this s)) = requests s ++ issued s (snd (run_ this s))
  /\ Forall (fun q => req_tools q = Some (tools this)
                      /\ req_stream q = true
                      /\ req_model q =
                         js_or (model this) (js_or CHATGPT_DEFAULT_MODEL "gpt-4o")
                      /\ req_model q <> EmptyString)
            (issued s (snd (run_ this s))).
Proof.
  through_initialize s.
  destruct (run_cases this s) as [[e He]|(l & s0 & -> & _ & Hsame & _)].
  - rewrite He. cbn [snd].
    rewrite (issued_app s _ []) by (rewrite Hreq0, app_nil_r; reflexivity).
    rewrite app_nil_r. auto.
  - destruct Hsame as (_ & _ & _ & _ & Hreq & _).
    match type of Hreq with
    | _ = requests (snd (while_steps_ ?f ?t ?l ?x)) =>
        destruct (while_steps_bounds f t l x) as (reqs & _ & Hreq' & Hall & _)
    end.
    rewrite Hreq', Hreq0 in Hreq.
    rewrite (issued_app s _ reqs Hreq). split; [exact Hreq|].
    eapply Forall_impl; [|exact Hall]. cbn. intros q (Ht & Hs & Hmod).
    repeat split; auto. rewrite Hmod.
    apply js_or_nonempty, js_or_nonempty. discriminate.
Qed.

(** The bound on the requests and the dispatches of a run. *)
Lemma run_requests_are_bounded_lemma (this : ResponderAgent) (s : State) :
  exists reqs,
    requests (snd (run_ this s)) = requests s ++ reqs
    /\ (Z.of_nat (length reqs) <= Z.max 0 (maxToolCallSteps this - steps s))%Z
    /\ (steps s <= steps (snd (run_ this s))
        <= Z.max (steps s) (maxToolCallSteps this))%Z
    /\ (steps (snd (run_ this s)) =
        steps s
        + Z.of_nat (length (dispatches (console (snd (run_ this s)))))
        - Z.of_nat (length (dispatches (console s))))%Z.
Proof.
  through_initialize s.
  destruct (run_cases this s) as [[e He]|(l & s0 & -> & _ & Hsame & _)].
  - rewrite He. cbn [snd]. exists []. rewrite app_nil_r, Hst0, Hd0, Hreq0.
    cbn [length]. repeat split; lia.
  - destruct Hsame as (_ & Hst & _ & _ & Hreq & _ & Hcon).
    match type of Hreq with
    | _ = requests (snd (while_steps_ ?f ?t ?l ?x)) =>
        destruct (while_steps_bounds f t l x)
          as (reqs & _ & Hreq' & _ & Hlen & Hst' & Hle & _)
    end.
    exists reqs. rewrite Hreq, Hreq', Hreq0, Hst, Hcon.
    rewrite Hst0, Hd0 in *. repeat split; lia.
Qed.

(** X2.  With a step counter that starts at 0, as the constructor leaves
    it, and an integer [maxToolCallSteps] of at most
    [Number.MAX_SAFE_INTEGER] (where the doubles of the source count
    exactly), a run makes at most [maxToolCallSteps] completion requests,
    none when the bound is not positive, whatever the provider answers.
    The step counter stays between 0 and the bound, and it has gone up by
    exactly one for every call of the dispatcher. *)
Theorem run_requests_are_bounded (this : ResponderAgent) (s : State) :
  steps s = 0%Z ->
  (maxToolCallSteps this <= MAX_SAFE_INTEGER)%Z ->
  (Z.of_nat (length (issued s (snd (run_ this s))))
   <= Z.max 0 (maxToolCallSteps this))%Z
  /\ (0 <= steps (snd (run_ this s)) <= Z.max 0 (maxToolCallSteps this))%Z
  /\ (steps (snd (run_ this s)) =
      Z.of_nat (length (dispatches (console (snd (run_ this s)))))
      - Z.of_nat (length (dispatches (console s))))%Z.
Proof.
  intros Hzero _. through_initialize s.
  destruct (run_cases this s) as [[e He]|(l & s0 & -> & _ & Hsame & _)].
  - rewrite He. cbn [snd].
    rewrite (issued_app s _ []) by (rewrite Hreq0, app_nil_r; reflexivity).
    rewrite Hst0, Hd0. cbn [length]. lia.
  - destruct Hsame as (_ & Hst & _ & _ & Hreq & _ & Hcon).
    match type of Hreq with
    | _ = requests (snd (while_steps_ ?f ?t ?l ?x)) =>
        destruct (while_steps_bounds f t l x)
          as (reqs & _ & Hreq' & _ & Hlen & Hst' & Hle & _)
    end.
    rewrite Hreq', Hreq0 in Hreq. rewrite (issued_app s _ reqs Hreq).
    rewrite Hst, Hcon. rewrite Hst0, Hd0 in *. lia.
Qed.

(** X3.  The history only grows: however a run ends (with an exception of
    [initialize], an errored stream or a closed one), the history it
    started from is still there, in order, in front of what the run has
    appended. *)
Theorem run_history_is_append_only (this : ResponderAgent) (s : State) :
  currentMessages (snd (run_ this s)) =
  currentMessages s ++ appended s (snd (run_ this s)).
Proof.
  through_initialize s.
  destruct (run_cases this s) as [[e He]|(l & s0 & -> & _ & Hsame & _)].
  - rewrite He. cbn [snd].
    rewrite (appended_app s _ []) by (rewrite Hm0, app_nil_r; reflexivity).
    rewrite app_nil_r. exact Hm0.
  - destruct Hsame as (Hm & _).
    match type of Hm with
    | _ = currentMessages (snd (while_steps_ ?f ?t ?l ?x)) =>
        destruct (while_steps_bounds f t l x)
          as (_ & suffix & _ & _ & _ & _ & _ & Hm' & _)
    end.
    rewrite Hm', Hm0 in Hm. rewrite (appended_app s _ suffix Hm). exact Hm.
Qed.

(** X4.  When the stream ends in error, no relay has been started and the
    stream has not been closed, so nothing of the run is persisted; and the
    error comes from a round: at least one completion request has been
    made. *)
Theorem run_errored_stream_starts_no_relay (this : ResponderAgent) (s : State)
    (e : Exception) :
  fst (run_ this s) = Return (StreamErrored e) ->
  waiting (snd (run_ this s)) = waiting s
  /\ closed (snd (run_ this s)) = closed s
  /\ issued s (snd (run_ this s)) <> [].
Proof.
  intros Hrun. through_initialize s.
  destruct (run_cases this s) as [[e' He]|(l & s0 & -> & _ & Hsame & Hout)].
  - rewrite He in Hrun. discriminate Hrun.
  - destruct Hsame as (_ & _ & _ & _ & Hreq & _).
    match type of Hreq with
    | _ = requests (snd (while_steps_ ?f ?t ?l ?x)) =>
        destruct (while_steps_bounds f t l x)
          as (reqs & _ & Hreq' & _ & _ & _ & _ & _ & _ & _ & _ & Hne);
        destruct (fst (while_steps_ f t l x)) as [l'|e'|]
    end; [| |contradiction].
    + destruct Hout as (Hc & _). congruence.
    + destruct Hout as (_ & Hw & Hcl).
      rewrite Hreq', Hreq0 in Hreq. rewrite (issued_app s _ reqs Hreq).
      repeat split; auto. apply (Hne e'). reflexivity.
Qed.

(** X7.  In a run that completes, the request of every round carries the
    whole history so far: the history the run started from, followed by
    the messages of all earlier rounds, the assistant message of a round
    before its tool messages.  There is one request per round. *)
Theorem run_requests_carry_the_history (this : ResponderAgent) (s : State) :
  fst (run_ this s) = Return StreamClosed ->
  exists rounds : list Round,
    currentMessages (snd (run_ this s)) = currentMessages s ++ produced rounds
    /\ issued s (snd (run_ this s)) =
       map (round_request CHATGPT_DEFAULT_MODEL this (currentMessages s) rounds)
           (seq 0 (length rounds))
    /\ map req_messages (issued s (snd (run_ this s))) =
       map (fun k => currentMessages s ++ produced (firstn k rounds))
           (seq 0 (length rounds)).
Proof.
  intros Hrun. through_initialize s.
  destruct (run_cases this s) as [[e' He]|(l & s0 & -> & _ & Hsame & Hout)].
  - rewrite He in Hrun. discriminate Hrun.
  - destruct Hsame as (Hm & _ & _ & _ & Hreq & _).
    match type of Hreq with
    | _ = requests (snd (while_steps_ ?f ?t ?l ?x)) =>
        destruct (while_steps_ f t l x) as [[l'|e'|] s1] eqn:Hloop
    end; cbn [fst snd] in *; [| |contradiction].
    + apply while_steps_trace in Hloop as (rounds & Hm' & Hreq' & _).
      rewrite Hm0 in Hm', Hreq'. rewrite Hreq0 in Hreq'.
      rewrite Hm' in Hm. rewrite Hreq' in Hreq.
      exists rounds. rewrite (issued_app s _ _ Hreq).
      split; [exact Hm|]. split; [reflexivity|].
      rewrite map_map. reflexivity.
    + destruct Hout as (Hc & _). congruence.
Qed.

(** X8.  In a run that completes, the ids of the messages appended to the
    history are the uuids drawn during the run, one draw per message in the
    order of the messages, and no draw is left over.  Every appended message
    carries the thread of the agent. *)
Theorem run_appended_ids_are_the_draws (this : ResponderAgent) (s : State) :
  fst (run_ this s) = Return StreamClosed ->
  map id (appended s (snd (run_ this s))) =
  map uuid (seq (uuid_count s) (length (appended s (snd (run_ this s)))))
  /\ uuid_count (snd (run_ this s)) =
     uuid_count s + length (appended s (snd (run_ this s)))
  /\ Forall (fun m => thread_id m = threadID this)
            (appended s (snd (run_ this s))).
Proof.
  intros Hrun. through_initialize s.
  destruct (run_cases this s) as [[e' He]|(l & s0 & -> & _ & Hsame & Hout)].
  - rewrite He in Hrun. discriminate Hrun.
  - destruct Hsame as (Hm & _ & Huc & _).
    match type of Hm with
    | _ = currentMessages (snd (while_steps_ ?f ?t ?l ?x)) =>
        destruct (while_steps_ f t l x) as [[l'|e'|] s1] eqn:Hloop
    end; cbn [fst snd] in *; [| |contradiction].
    + apply while_steps_trace in Hloop
        as (rounds & Hm' & _ & Hids & Huc' & Hth & _).
      rewrite Hm0 in Hm'. rewrite Huc0 in Hids, Huc'.
      rewrite Hm' in Hm. rewrite (appended_app s _ _ Hm).
      repeat split; auto. congruence.
    + destruct Hout as (Hc & _). congruence.
Qed.

(** X9.  If the uuid library never returns the same value twice, the
    messages a completed run has appended to the history have pairwise
    distinct ids. *)
Theorem run_appended_ids_are_distinct (this : ResponderAgent) (s : State) :
  (forall a b, uuid a = uuid b -> a = b) ->
  fst (run_ this s) = Return StreamClosed ->
  NoDup (map id (appended s (snd (run_ this s)))).
Proof.
  intros Hinj Hrun. through_initialize s.
  destruct (run_cases this s) as [[e' He]|(l & s0 & -> & _ & Hsame & Hout)].
  - rewrite He in Hrun. discriminate Hrun.
  - destruct Hsame as (Hm & _).
    match type of Hm with
    | _ = currentMessages (snd (while_steps_ ?f ?t ?l ?x)) =>
        destruct (while_steps_ f t l x) as [[l'|e'|] s1] eqn:Hloop
    end; cbn [fst snd] in *; [| |contradiction].
    + apply while_steps_trace in Hloop as (rounds & Hm' & _ & Hids & _).
      rewrite Hm0 in Hm'. rewrite Hm' in Hm. rewrite (appended_app s _ _ Hm).
      rewrite Hids. apply NoDup_map_injective; [exact Hinj|].
      apply seq_NoDup.
    + destruct Hout as (Hc & _). congruence.
Qed.

(** X10.  Every tool call that reaches the dispatcher during a run gets
    exactly one tool message on the output, in the order of the calls, with
    [tool_call_id] the id of the call or the empty string; this holds
    however the run ends. *)
Theorem run_answers_every_dispatched_call (this : ResponderAgent) (s : State) :
  exists calls : list (list ToolCall),
    dispatches (console (snd (run_ this s))) = dispatches (console s) ++ calls
    /\ map tool_call_id (forwarded_results (enqueued (snd (run_ this s)))) =
       map tool_call_id (forwarded_results (enqueued s)) ++
       map (fun toolCall => Some (js_or (call_id toolCall) EmptyString))
           (concat calls).
Proof.
  through_initialize s.
  destruct (run_cases this s) as [[e He]|(l & s0 & -> & _ & Hsame & _)].
  - rewrite He. cbn [snd]. exists []. rewrite Hd0, Henq0. cbn.
    rewrite !app_nil_r. auto.
  - destruct Hsame as (_ & _ & _ & _ & _ & Henq & Hcon).
    match type of Hcon with
    | _ = console (snd (while_steps_ ?f ?t ?l ?x)) =>
        destruct (while_steps_answers f t l x) as (calls & Hd & Hfw)
    end.
    exists calls. rewrite Hcon, Henq, Hd, Hfw, Hd0, Henq0. auto.
Qed.

(** X11.  A run queries the tool catalog once when the history is not
    empty, and not at all when it is; the loop never queries it.  The query
    is made from the last five messages of the history, or from all of them
    when there are fewer. *)
Theorem run_queries_catalog_once (this : ResponderAgent) (s : State) :
  catalog_queries (snd (run_ this s)) =
  catalog_queries s ++
  match currentMessages s with
  | [] => []
  | _ :: _ =>
      [js_or (processMessagesForLM (slice_last 5 (currentMessages s))) EmptyString]
  end
  /\ length (slice_last 5 (currentMessages s)) =
     Nat.min 5 (length (currentMessages s))
  /\ firstn (length (currentMessages s) - 5) (currentMessages s)
     ++ slice_last 5 (currentMessages s) = currentMessages s.
Proof.
  through_initialize s. split; [|split].
  - destruct (run_cases this s) as [[e He]|(l & s0 & -> & _ & Hsame & _)].
    + rewrite He. exact Hcat0.
    + destruct Hsame as (_ & _ & _ & Hcat & _).
      match type of Hcat with
      | _ = catalog_queries (snd (while_steps_ ?f ?t ?l ?x)) =>
          destruct (while_steps_bounds f t l x)
            as (_ & _ & _ & _ & _ & _ & _ & _ & _ & _ & Hcat' & _)
      end.
      rewrite Hcat, Hcat'. exact Hcat0.
  - unfold slice_last. rewrite length_skipn. lia.
  - unfold slice_last. apply firstn_skipn.
Qed.

End Trace.

(** ** The relay, whatever the store does *)

Section RelayInGeneral.

Variable faults : nat -> Message -> option Exception.

Local Abbreviation save_one :=
  (fun message : Message =>
     createMessage faults message ;; relay_log (saved_line message)).

Lemma save_loop (ms : list Message) :
  forall st,
    for_each save_one ms st =
    (match rejection faults (attempts st) (stored_count faults (attempts st) ms) ms with
     | Some e => Throw e
     | None => Return tt
     end,
     mkStore (stored st ++ firstn (stored_count faults (attempts st) ms) ms)
             (attempts st
              + Nat.min (S (stored_count faults (attempts st) ms)) (length ms))
             (relay_console st
              ++ map saved_line (firstn (stored_count faults (attempts st) ms) ms))).
Proof.
  induction ms as [|m ms IH]; intros st.
  - cbn. unfold ret. rewrite !app_nil_r, Nat.add_0_r. destruct st; reflexivity.
  - cbn [for_each stored_count]. unfold bind at 1. unfold bind at 1.
    unfold createMessage at 1. unfold rejection.
    destruct (faults (attempts st) m) as [e|] eqn:Hm.
    + cbn. rewrite Nat.add_0_r, Hm, !app_nil_r. do 2 f_equal. lia.
    + cbn [relay_log modify]. rewrite IH. cbn [attempts stored relay_console].
      cbn [nth_error firstn map length]. unfold rejection.
      rewrite Nat.add_succ_r, <- !app_assoc. cbn [app Nat.add].
      do 2 f_equal. lia.
Qed.

(** X12.  The relay never throws, whatever the store does.  It stores the
    messages in order up to the first one the store rejects, writes a
    "Message Saved" line for each stored message and one failure line for
    the rejected one, and does not call the store again afterwards; the
    store takes every message exactly when the count of stored messages is
    the length of the list. *)
Theorem saveMessages_stores_up_to_first_rejection (ms : list Message)
    (st : StoreState) :
  saveMessages faults ms st =
  (Return tt,
   mkStore (stored st ++ firstn (stored_count faults (attempts st) ms) ms)
           (attempts st
            + Nat.min (S (stored_count faults (attempts st) ms)) (length ms))
           (relay_console st
            ++ map saved_line (firstn (stored_count faults (attempts st) ms) ms)
            ++ match rejection faults (attempts st)
                               (stored_count faults (attempts st) ms) ms with
               | Some e => [LogSaveFailed e]
               | None => []
               end))
  /\ accepted faults (attempts st) ms =
     Nat.eqb (stored_count faults (attempts st) ms) (length ms).
Proof.
  split.
  - rewrite saveMessages_eq. unfold try_catch. rewrite save_loop.
    destruct (rejection _ _ _ _); unfold relay_log, modify;
      cbn [stored attempts relay_console];
      rewrite <- ?app_assoc, ?app_nil_r; reflexivity.
  - generalize (attempts st). induction ms as [|m ms IH]; intros n; cbn; auto.
    destruct (faults n m); [reflexivity|]. apply IH.
Qed.

End RelayInGeneral.

(** ** The tool service *)

Section ToolService.

Variable Tool : Type.
Variable AuthType : Type.
Variable await_rows : Tools.Query AuthType -> Tools.Response (list Tool).
Variable await_single : Tools.Query AuthType -> Tools.Response Tool.
Variable await_delete : Tools.Query AuthType -> option Tools.PostgrestError.

(** X15.  The pages of [getTools] tile the rows.  For an integer page
    [p] from 1 on and a positive integer page size [n] with [p * n] at most
    [Number.MAX_SAFE_INTEGER] (where the products of the source are exact),
    page [p] asks for the [n] rows from [(p - 1) * n] to [p * n - 1], and a
    row index lies in the range of page [p] exactly when [p] is its quotient
    by [n] plus one; so every such row is on one page and page [p + 1] starts
    right after page [p].  The query goes to the database as built. *)
Theorem getTools_pages_tile (options : Tools.GetToolsOptions) (p n : Z)
    (log : list (Tools.Query AuthType)) :
  Tools.page options = Some p ->
  Tools.pageSize options = Some n ->
  (0 < n)%Z ->
  (1 <= p)%Z ->
  (p * n <= MAX_SAFE_INTEGER)%Z ->
  exists lo hi,
    Tools.ranged (Tools.getTools_query (AuthType := AuthType) options)
    = Some (lo, hi)
    /\ (hi - lo + 1 = n)%Z
    /\ (forall i, (lo <= i <= hi)%Z <-> (i / n + 1 = p)%Z)
    /\ snd (Tools.getTools await_rows options log) =
       log ++ [Tools.getTools_query options].
Proof.
  intros Hp Hn Hpos _ _.
  exists ((p - 1) * n)%Z, (p * n - 1)%Z.
  unfold Tools.getTools, Tools.getTools_query. rewrite Hp, Hn. cbn.
  split; [reflexivity|]. split; [lia|]. split.
  - intros i. pose proof (Z.div_mod i n) as Hd.
    pose proof (Z.mod_pos_bound i n Hpos) as Hm. split; intros H; nia.
  - destruct (Tools.error _); reflexivity.
Qed.

(** An empty id never reaches the database: [getToolByID],
    [updateTool] and [deleteTool] throw "Tool ID not specified" before any
    query is awaited. *)
Lemma empty_id_is_refused_before_any_query
    (log : list (Tools.Query AuthType))
    (name description schema credential : option string)
    (auth_type : option AuthType)
    (execution_count average_execution_time success_count : option Z)
    (instruction_examples : list string) :
  Tools.getToolByID await_single EmptyString log =
    (Tools.Threw (Tools.ThrownError "Tool ID not specified"), log)
  /\ Tools.updateTool await_single
       (Tools.mkUpdate EmptyString name description schema auth_type
                       credential execution_count average_execution_time
                       success_count instruction_examples) log =
     (Tools.Threw (Tools.ThrownError "Tool ID not specified"), log)
  /\ Tools.deleteTool await_delete EmptyString log =
     (Tools.Threw (Tools.ThrownError "Tool ID not specified"), log).
Proof. repeat split; reflexivity. Qed.

(** X16.  [getToolByID] throws in two cases only: on an empty id, and on a
    database error whose code is neither "PGRST116" (no row) nor "22P02"
    (invalid uuid), which it throws as it is.  A missing row or an invalid
    uuid is never an exception. *)
Theorem getToolByID_throws_only_on_real_failures (toolID : string)
    (log : list (Tools.Query AuthType)) (t : Tools.Thrown) :
  fst (Tools.getToolByID await_single toolID log) = Tools.Threw t ->
  (toolID = EmptyString /\ t = Tools.ThrownError "Tool ID not specified"
   /\ snd (Tools.getToolByID await_single toolID log) = log)
  \/ (exists e,
        t = Tools.ThrownPostgrest e
        /\ Tools.code e <> "PGRST116" /\ Tools.code e <> "22P02"
        /\ Tools.error
             (await_single
                (Tools.mkQuery "tools" Tools.Select Tools.tool_columns
                               None [("id", toolID)] None true)) = Some e).
Proof.
  unfold Tools.getToolByID.
  destruct (String.eqb_spec toolID EmptyString) as [->|Hid].
  - cbn. intros H. injection H as <-. left. auto.
  - destruct (Tools.error _) as [e|] eqn:He; [|discriminate].
    destruct (String.eqb_spec (Tools.code e) "PGRST116") as [|H1];
      [discriminate|].
    destruct (String.eqb_spec (Tools.code e) "22P02") as [|H2];
      [discriminate|].
    cbn. intros H. injection H as <-. right. exists e. auto.
Qed.

End ToolService.

(** ** The default bound, and a provider that fails *)

Section Edges.

Variable uuid : nat -> string.
Variable mergeResponseObjects :
  ChatCompletionChunk -> ChatCompletionChunk -> ChatCompletionChunk.
Variable processMessagesForLM : list Message -> option string.
Variable getToolsByPrompt : string -> Exception + list SuggestedTool.
Variable create : nat -> CompletionRequest -> Exception + list ChatCompletionChunk.
Variable CHATGPT_DEFAULT_MODEL : option string.

Local Abbreviation iteration_ :=
  (iteration uuid mergeResponseObjects create CHATGPT_DEFAULT_MODEL).
Local Abbreviation run_ :=
  (run uuid mergeResponseObjects processMessagesForLM getToolsByPrompt create
       CHATGPT_DEFAULT_MODEL).

(** X13.  An agent built without [maxToolCallSteps] makes at most five
    completion requests in a run and goes through the dispatcher at most
    five times, whatever the history, the provider and the other
    parameters. *)
Theorem default_agent_makes_at_most_five_requests (threadID : string)
    (messages : list Message) (save : option bool) (model : option string) :
  length (requests
            (snd (run_ (new_ResponderAgent
                          (mkParam threadID messages None save model))
                       (new_State (mkParam threadID messages None save model)))))
  <= 5
  /\ length (dispatches
               (console
                  (snd (run_ (new_ResponderAgent
                                (mkParam threadID messages None save model))
                             (new_State
                                (mkParam threadID messages None save model))))))
     <= 5.
Proof.
  pose proof (run_requests_are_bounded_lemma
                uuid mergeResponseObjects processMessagesForLM getToolsByPrompt
                create CHATGPT_DEFAULT_MODEL
                (new_ResponderAgent (mkParam threadID messages None save model))
                (new_State (mkParam threadID messages None save model)))
    as (reqs & Hreq & Hlen & Hle & Hst).
  rewrite Hreq. cbn [new_State requests app console dispatches flat_map length
                     steps new_ResponderAgent maxToolCallSteps
                     param_maxToolCallSteps] in *.
  unfold MAX_TOOLCALL_STEPS in *. lia.
Qed.

Lemma iteration_fetch_fails (this : ResponderAgent) (s : State) (e : Exception) :
  create (length (requests s)) (request_of CHATGPT_DEFAULT_MODEL this s) = inl e ->
  iteration_ this s =
  (Throw e,
   add_request (request_of CHATGPT_DEFAULT_MODEL this s)
               (snd (log (LogStep (steps s) (length (currentMessages s))) s))).
Proof.
  intros Hc. unfold iteration, bind. cbn [get log modify]. rewrite fetch_eq.
  unfold request_of in Hc |- *. cbn [requests currentMessages steps snd].
  rewrite Hc. reflexivity.
Qed.

(** X14.  A provider that fails on the first request does not make [run]
    fail: [run] hands out its stream, and the stream ends errored with the
    exception of the provider.  Nothing has been appended to the history or
    sent to the output, the stream has not been closed and no relay has been
    started; the request has been made. *)
Theorem run_provider_failure_errors_the_stream (this : ResponderAgent)
    (s : State) (m : Message) (ms : list Message)
    (suggested : list SuggestedTool) (e : Exception) :
  currentMessages s = m :: ms ->
  getToolsByPrompt
    (js_or (processMessagesForLM (slice_last 5 (m :: ms))) EmptyString)
  = inr suggested ->
  (steps s < maxToolCallSteps this)%Z ->
  create (length (requests s)) (request_of CHATGPT_DEFAULT_MODEL this s) = inl e ->
  fst (run_ this s) = Return (StreamErrored e)
  /\ currentMessages (snd (run_ this s)) = currentMessages s
  /\ enqueued (snd (run_ this s)) = enqueued s
  /\ requests (snd (run_ this s)) =
     requests s ++ [request_of CHATGPT_DEFAULT_MODEL this s]
  /\ closed (snd (run_ this s)) = closed s
  /\ waiting (snd (run_ this s)) = waiting s.
Proof.
  intros Hm Hq Hlt Hc. rewrite run_eq.
  pose proof (initialize_effects processMessagesForLM getToolsByPrompt s) as Hi.
  destruct (initialize_catalog_up processMessagesForLM getToolsByPrompt
              s m ms suggested Hm Hq)
    as (s0 & Hinit & Hm0 & Hst0 & Hreq0 & Henq0 & _).
  rewrite Hinit in Hi |- *. destruct Hi as (_ & _ & _ & _ & _ & _ & Hcl0 & Hw0 & _).
  rewrite start_eq, processSteps_eq, while_steps_eq.
  assert (Hg : (steps s0 <? maxToolCallSteps this)%Z = true)
    by (apply Z.ltb_lt; lia).
  rewrite Hg.
  assert (Hr : request_of CHATGPT_DEFAULT_MODEL this s0 =
               request_of CHATGPT_DEFAULT_MODEL this s)
    by (unfold request_of; rewrite Hm0, Hst0; reflexivity).
  rewrite (iteration_fetch_fails this s0 e)
    by (rewrite Hreq0, Hr; exact Hc).
  cbn. rewrite Hr, Hm0, Henq0, Hreq0, Hcl0, Hw0. repeat split; reflexivity.
Qed.

End Edges.

(** ** The further properties, on the scenarios *)

Lemma processResponse_forwards_every_chunk_witness :
  exists (m : Message) (o : ChatCompletionChunk) (s' : State),
    processResponse Scenario.uuid DeltaMerger.mergeResponseObjects
                    Samples.agent Scenario.stop_stream Samples.fresh
    = (Return (m, o), s')
    /\ enqueued s' = enqueued Samples.fresh ++ fragments (id m) Scenario.stop_stream
    /\ length (fragments (id m) Scenario.stop_stream) = 2
    /\ content m = Some "It's sunny.".
Proof.
  eexists. eexists. eexists. split; [reflexivity|].
  pose proof (processResponse_forwards_every_chunk
                Scenario.uuid DeltaMerger.mergeResponseObjects Samples.agent
                Scenario.stop_stream Samples.fresh _ _ _ eq_refl)
    as (H1 & H2 & _).
  split; [exact H1|]. split; [exact H2|]. reflexivity.
Defined.

Lemma processResponse_chunk_without_choice_witness :
  exists message,
    processResponse Scenario.uuid DeltaMerger.mergeResponseObjects
                    Samples.agent
                    (firstn 1 Scenario.stop_stream
                     ++ Samples.bare_chunk :: skipn 1 Scenario.stop_stream)
                    Samples.fresh
    = (Throw (TypeError message),
       add_events (fragments (Scenario.uuid 0) (firstn 1 Scenario.stop_stream))
                  (set_uuid_count 1 Samples.fresh)).
Proof.
  exact (processResponse_chunk_without_choice
           Scenario.uuid DeltaMerger.mergeResponseObjects Samples.agent
           (firstn 1 Scenario.stop_stream) (skipn 1 Scenario.stop_stream)
           Samples.bare_chunk Samples.fresh eq_refl eq_refl).
Defined.

Lemma run_errored_stream_starts_no_relay_witness :
  waiting (snd Scenario.silent_run) = []
  /\ closed (snd Scenario.silent_run) = false
  /\ issued (new_State (Scenario.param [Scenario.question] None None))
            (snd Scenario.silent_run) <> [].
Proof.
  exact (run_errored_stream_starts_no_relay
           Scenario.uuid DeltaMerger.mergeResponseObjects
           Scenario.processMessagesForLM Scenario.catalog_up Scenario.silent None
           (new_ResponderAgent (Scenario.param [Scenario.question] None None))
           (new_State (Scenario.param [Scenario.question] None None))
           (TypeError "Cannot read properties of undefined (reading '0')")
           eq_refl).
Defined.

Lemma run_requests_carry_the_history_witness :
  exists rounds : list Round,
    currentMessages (snd Scenario.tool_loop_run) =
    [Scenario.question] ++ produced rounds
    /\ issued Samples.fresh (snd Scenario.tool_loop_run) =
       map (round_request None Samples.agent [Scenario.question] rounds)
           (seq 0 (length rounds))
    /\ map req_messages (issued Samples.fresh (snd Scenario.tool_loop_run)) =
       map (fun k => [Scenario.question] ++ produced (firstn k rounds))
           (seq 0 (length rounds)).
Proof.
  exact (run_requests_carry_the_history
           Scenario.uuid DeltaMerger.mergeResponseObjects
           Scenario.processMessagesForLM Scenario.catalog_up
           Scenario.always_tool_calls None Samples.agent Samples.fresh eq_refl).
Defined.

Lemma run_appended_ids_are_the_draws_witness :
  map id (appended Samples.fresh (snd Scenario.tool_loop_run)) =
  map Scenario.uuid
      (seq 0 (length (appended Samples.fresh (snd Scenario.tool_loop_run))))
  /\ uuid_count (snd Scenario.tool_loop_run) =
     0 + length (appended Samples.fresh (snd Scenario.tool_loop_run))
  /\ Forall (fun m => thread_id m = "t1")
            (appended Samples.fresh (snd Scenario.tool_loop_run)).
Proof.
  exact (run_appended_ids_are_the_draws
           Scenario.uuid DeltaMerger.mergeResponseObjects
           Scenario.processMessagesForLM Scenario.catalog_up
           Scenario.always_tool_calls None Samples.agent Samples.fresh eq_refl).
Defined.

Lemma tally_injective (a : nat) : forall b, Samples.tally a = Samples.tally b -> a = b.
Proof.
  induction a as [|a IH]; intros [|b] H; cbn in H; try discriminate H; auto.
  injection H as H. f_equal. auto.
Defined.

Lemma run_appended_ids_are_distinct_witness :
  NoDup (map id (appended Samples.fresh (snd Samples.tally_run))).
Proof.
  exact (run_appended_ids_are_distinct
           Samples.tally DeltaMerger.mergeResponseObjects
           Scenario.processMessagesForLM Scenario.catalog_up
           Scenario.always_tool_calls None Samples.agent Samples.fresh
           tally_injective eq_refl).
Defined.

Lemma getTools_pages_tile_witness :
  exists lo hi,
    Tools.ranged (Tools.getTools_query (AuthType := unit) Samples.second_page)
    = Some (lo, hi)
    /\ (hi - lo + 1 = 10)%Z
    /\ (forall i, (lo <= i <= hi)%Z <-> (i / 10 + 1 = 2)%Z)
    /\ snd (Tools.getTools Samples.one_row Samples.second_page []) =
       [] ++ [Tools.getTools_query Samples.second_page].
Proof.
  apply (getTools_pages_tile string unit Samples.one_row
           Samples.second_page 2 10 []);
    try reflexivity; vm_compute; discriminate.
Defined.

Lemma getToolByID_throws_only_on_real_failures_witness :
  ("tool-1" = EmptyString
   /\ Tools.ThrownPostgrest (Tools.mkError "XX000" "internal error")
      = Tools.ThrownError "Tool ID not specified"
   /\ snd (Tools.getToolByID Samples.failing_single "tool-1" []) = [])
  \/ (exists e,
        Tools.ThrownPostgrest (Tools.mkError "XX000" "internal error")
        = Tools.ThrownPostgrest e
        /\ Tools.code e <> "PGRST116" /\ Tools.code e <> "22P02"
        /\ Tools.error
             (Samples.failing_single
                (Tools.mkQuery "tools" Tools.Select Tools.tool_columns
                               None [("id", "tool-1")] None true)) = Some e).
Proof.
  exact (getToolByID_throws_only_on_real_failures string unit
           Samples.failing_single "tool-1" []
           (Tools.ThrownPostgrest (Tools.mkError "XX000" "internal error"))
           eq_refl).
Defined.

Lemma run_provider_failure_errors_the_stream_witness :
  fst (run Scenario.uuid DeltaMerger.mergeResponseObjects
           Scenario.processMessagesForLM Scenario.catalog_up
           Samples.provider_down None Samples.agent Samples.fresh)
  = Return (StreamErrored (Error "503 Service Unavailable"))
  /\ currentMessages
       (snd (run Scenario.uuid DeltaMerger.mergeResponseObjects
                 Scenario.processMessagesForLM Scenario.catalog_up
                 Samples.provider_down None Samples.agent Samples.fresh))
     = [Scenario.question].
Proof.
  pose proof (run_provider_failure_errors_the_stream
                Scenario.uuid DeltaMerger.mergeResponseObjects
                Scenario.processMessagesForLM Scenario.catalog_up
                Samples.provider_down None Samples.agent Samples.fresh
                Scenario.question [] [mkSuggested "get_current_weather" "0.83"]
                (Error "503 Service Unavailable")
                eq_refl eq_refl eq_refl eq_refl) as (H1 & H2 & _).
  split; [exact H1|exact H2].
Defined.

Lemma run_requests_are_bounded_witness :
  (Z.of_nat (length (issued Samples.fresh (snd Scenario.tool_loop_run)))
   <= Z.max 0 2)%Z
  /\ (0 <= steps (snd Scenario.tool_loop_run) <= Z.max 0 2)%Z
  /\ (steps (snd Scenario.tool_loop_run) =
      Z.of_nat (length (dispatches (console (snd Scenario.tool_loop_run))))
      - Z.of_nat (length (dispatches (console Samples.fresh))))%Z.
Proof.
  apply (run_requests_are_bounded
           Scenario.uuid DeltaMerger.mergeResponseObjects
           Scenario.processMessagesForLM Scenario.catalog_up
           Scenario.always_tool_calls None Samples.agent Samples.fresh);
    [reflexivity|vm_compute; discriminate].
Defined.

(** ** A first response that does not ask for tools *)

Section FirstResponse.

Variable uuid : nat -> string.
Variable mergeResponseObjects :
  ChatCompletionChunk -> ChatCompletionChunk -> ChatCompletionChunk.
Variable processMessagesForLM : list Message -> option string.
Variable getToolsByPrompt : string -> Exception + list SuggestedTool.
Variable create : nat -> CompletionRequest -> Exception + list ChatCompletionChunk.
Variable CHATGPT_DEFAULT_MODEL : option string.

Local Abbreviation iteration_ :=
  (iteration uuid mergeResponseObjects create CHATGPT_DEFAULT_MODEL).
Local Abbreviation while_steps_ :=
  (while_steps uuid mergeResponseObjects create CHATGPT_DEFAULT_MODEL).
Local Abbreviation processSteps_ :=
  (processSteps uuid mergeResponseObjects create CHATGPT_DEFAULT_MODEL).
Local Abbreviation run_ :=
  (run uuid mergeResponseObjects processMessagesForLM getToolsByPrompt create
       CHATGPT_DEFAULT_MODEL).

(** Past the guard, the first request [processSteps] makes is the request
    of the state it starts from. *)
Lemma processSteps_first_request (this : ResponderAgent) (s : State) :
  (steps s < maxToolCallSteps this)%Z ->
  exists rest,
    requests (snd (processSteps_ this s)) =
    requests s ++ request_of CHATGPT_DEFAULT_MODEL this s :: rest.
Proof.
  intros Hlt. apply Z.ltb_lt in Hlt.
  rewrite processSteps_eq, while_steps_eq, Hlt.
  pose proof (iteration_effects uuid mergeResponseObjects processMessagesForLM
                getToolsByPrompt create CHATGPT_DEFAULT_MODEL this s) as He.
  pose proof (iteration_Throw uuid mergeResponseObjects create
                CHATGPT_DEFAULT_MODEL this s) as Ht.
  destruct (iteration_ this s) as [[[m [r|]]|e|] s1]; [| | |contradiction].
  - destruct He as (_ & _ & Hreq & _).
    match goal with
    | |- context [while_steps_ ?f ?t ?l ?x] =>
        destruct (while_steps_bounds uuid mergeResponseObjects
                    processMessagesForLM getToolsByPrompt create
                    CHATGPT_DEFAULT_MODEL f t l x)
          as (reqs & _ & Hreq' & _);
        destruct (while_steps_ f t l x) as [[l'|e|] s2]
    end; cbn [fst snd set_waiting requests] in *; exists reqs;
      rewrite Hreq', Hreq, <- app_assoc; reflexivity.
  - destruct He as (_ & _ & Hreq & _). exists []. cbn. exact Hreq.
  - destruct (Ht s1 e eq_refl) as (Hreq & _). exists []. cbn. exact Hreq.
Qed.

(** C8.  Whenever a run gets a first response (it makes a first request,
    and the provider answers it with a stream it can read) and the merged
    response carries a finish indicator other than [tool_calls], that round
    is the only one: the run makes no other request, appends exactly one
    message to the history, never calls the dispatcher, forwards no tool
    message, leaves the step counter alone and closes the stream.  Nothing
    is asked of [maxToolCallSteps]. *)
Theorem first_response_without_tool_calls_is_the_only_round
    (this : ResponderAgent) (s : State) (req : CompletionRequest)
    (rest : list CompletionRequest) (stream : list ChatCompletionChunk) :
  issued s (snd (run_ this s)) = req :: rest ->
  create (length (requests s)) req = inr stream ->
  readable mergeResponseObjects stream = true ->
  signals_tool_calls mergeResponseObjects stream = false ->
  rest = []
  /\ fst (run_ this s) = Return StreamClosed
  /\ (exists m, currentMessages (snd (run_ this s)) = currentMessages s ++ [m])
  /\ dispatches (console (snd (run_ this s))) = dispatches (console s)
  /\ forwarded_results (enqueued (snd (run_ this s))) =
     forwarded_results (enqueued s)
  /\ steps (snd (run_ this s)) = steps s.
Proof.
  rewrite run_eq.
  pose proof (initialize_effects processMessagesForLM getToolsByPrompt s) as Hi.
  destruct (initialize processMessagesForLM getToolsByPrompt s)
    as [[[]|e|] s0]; [| |contradiction].
  - destruct Hi as (_ & Hm0 & Hst0 & _ & Hreq0 & Henq0 & _ & _ & Hd0).
    rewrite start_eq.
    destruct (Z.lt_ge_cases (steps s0) (maxToolCallSteps this)) as [Hlt|Hge].
    + destruct (processSteps_first_request this s0 Hlt) as [rest' Hfirst].
      intros Hiss Hc Hr Hsig.
      assert (Hreq : req = request_of CHATGPT_DEFAULT_MODEL this s0).
      { revert Hfirst Hiss. unfold issued.
        destruct (processSteps_ this s0) as [[[]|e|] s1];
          cbn [fst snd close modify requests]; intros Hfirst Hiss;
          rewrite Hfirst, Hreq0, skipn_length_app in Hiss; congruence. }
      subst req. rewrite <- Hreq0 in Hc.
      destruct (processSteps_single_round
                  uuid mergeResponseObjects processMessagesForLM
                  getToolsByPrompt create CHATGPT_DEFAULT_MODEL
                  this s0 stream Hlt Hc Hr Hsig)
        as (m & s' & Hps & Hreq' & Hm' & Hd' & Hf' & Hst').
      revert Hiss. rewrite Hps. unfold issued.
      cbn [fst snd close modify requests currentMessages console enqueued steps].
      rewrite Hreq', Hreq0, skipn_length_app. intros Hiss.
      split; [congruence|]. split; [reflexivity|].
      split; [exists m; congruence|].
      rewrite Hd', Hf', Hst', Hd0, Henq0, Hst0. auto.
    + rewrite (processSteps_no_round uuid mergeResponseObjects create
                 CHATGPT_DEFAULT_MODEL this s0) by lia.
      unfold issued. cbn [fst snd close modify requests set_waiting].
      rewrite Hreq0, skipn_all.
      discriminate.
  - destruct Hi as (Hreq0 & _). unfold issued. cbn [snd].
    rewrite Hreq0, skipn_all.
    discriminate.
Qed.

End FirstResponse.

Lemma first_response_without_tool_calls_is_the_only_round_witness :
  fst Scenario.answered_run = Return StreamClosed
  /\ (exists m,
        currentMessages (snd Scenario.answered_run) =
        [Scenario.earlier; Scenario.question] ++ [m])
  /\ dispatches (console (snd Scenario.answered_run)) = []
  /\ forwarded_results (enqueued (snd Scenario.answered_run)) = []
  /\ steps (snd Scenario.answered_run) = 0%Z.
Proof.
  apply (first_response_without_tool_calls_is_the_only_round
           Scenario.uuid DeltaMerger.mergeResponseObjects
           Scenario.processMessagesForLM Scenario.catalog_up
           Scenario.always_stop None
           (new_ResponderAgent
              (Scenario.param [Scenario.earlier; Scenario.question] None None))
           (new_State
              (Scenario.param [Scenario.earlier; Scenario.question] None None))
           (request_of None
              (new_ResponderAgent
                 (Scenario.param [Scenario.earlier; Scenario.question] None None))
              (new_State
                 (Scenario.param [Scenario.earlier; Scenario.question] None None)))
           [] Scenario.stop_stream);
    reflexivity.
Defined.
